(** * Synchronizer: a blocking interface to asynchronous code

    A shallow embedding of [synchronicity.py] (class [Synchronizer]) and the
    properties of its scheduler host, context detector, call bridge, stream
    bridge, callable adapter and type adapter.

    Python objects are modelled by the data the code inspects; the instance
    attributes of one [Synchronizer] and the ambient thread-local state of the
    calling thread are threaded explicitly as a [World]. *)

From Stdlib Require Import ZArith Lia Ascii.
From stdpp Require Import base option list strings sorting.

Local Open Scope string_scope.
Local Open Scope list_scope.
Set Warnings "-register-all".

(** ** Exceptions *)

(** The three classes of [concurrent.futures] that
    [asyncio.futures._convert_future_exc] recognises. *)
Inductive futures_class :=
| FCancelledError
| FTimeoutError
| FInvalidStateError.

(** An exception object.  The first five constructors are raised by target
    code and carry their object identity:
    - [UserException]: an instance of [Exception] whose class is not exactly
      one of the three [concurrent.futures] classes;
    - [UserBaseException]: an instance of [BaseException] that is not an
      instance of [Exception], [SystemExit], [KeyboardInterrupt] or
      [asyncio.CancelledError] (GeneratorExit, a class of the user);
    - [ExitException]: an instance of [SystemExit] or [KeyboardInterrupt];
    - [AsyncioCancelledError]: an instance of [asyncio.CancelledError];
    - [FuturesError c]: an object whose class is exactly the class [c] of
      [concurrent.futures].
    The other constructors are the exceptions the libraries, the modelled
    code and the interpreter raise themselves. *)
Inductive exn :=
| UserException (id : nat)
| UserBaseException (id : nat)
| ExitException (id : nat)
| AsyncioCancelledError (id : nat)
| FuturesError (c : futures_class) (id : nat)
| ConvertedError (c : futures_class) (source : exn)
    (* the new asyncio exception (CancelledError, TimeoutError or
       InvalidStateError) that _convert_future_exc builds from the arguments
       of source, an object of exactly the class c of concurrent.futures *)
| FuturesCancelledError        (* concurrent.futures.CancelledError(), raised by result() of a cancelled future *)
| ArgumentNotClassOrCallable   (* Exception('Argument %s is not a class or a callable' % object) *)
| TypeError_format_arguments   (* '...%s...' % t for a tuple t whose length is not 1 *)
| TypeError_slots              (* type(): __slots__ is not a string or a tuple of strings, or names __dict__ or __weakref__ twice *)
| ValueError_slots_conflict    (* type(): a name in __slots__ conflicts with a class variable *)
| TypeError_qualname           (* type(): __qualname__ is not a str *)
| TypeError_classcell          (* type(): __classcell__ is not a cell *)
| RuntimeError_no_running_loop (* raised by asyncio.get_running_loop() *)
| TypeError_not_callable.      (* calling an object that is not callable *)

(** [isinstance(e, asyncio.CancelledError)] *)
Definition isinstance_CancelledError (e : exn) : bool :=
  match e with
  | AsyncioCancelledError _ => true
  | ConvertedError FCancelledError _ => true
  | _ => false
  end.

(** [isinstance(e, Exception)] *)
Definition isinstance_Exception (e : exn) : bool :=
  match e with
  | UserBaseException _ => false
  | ExitException _ => false
  | _ => negb (isinstance_CancelledError e)
  end.

(** The class of [concurrent.futures] that [e] is exactly an object of, if
    any.  [asyncio.TimeoutError] and [concurrent.futures.TimeoutError] are
    both the built-in [TimeoutError] (Python 3.11), so the asyncio exception
    built for a timeout is again an object of that class. *)
Definition futures_class_of (e : exn) : option futures_class :=
  match e with
  | FuturesError c _ => Some c
  | FuturesCancelledError => Some FCancelledError
  | ConvertedError FTimeoutError _ => Some FTimeoutError
  | _ => None
  end.

(** [isinstance(e, RuntimeError)] *)
Definition isinstance_RuntimeError (e : exn) : bool :=
  match e with
  | RuntimeError_no_running_loop => true
  | _ => false
  end.

(** ** Event loops *)

(** Identity of an event loop: created by a background thread of this
    Synchronizer ([asyncio.new_event_loop()] in [run_forever]), or created by
    somebody else (for instance by [asyncio.run] in the caller's thread). *)
Inductive loop :=
| BridgeLoop (n : nat)
| ForeignLoop (n : nat).

(** ** Deferred computations and deferred sequences *)

(** What a coroutine does at its n-th resumption by the scheduler. *)
Inductive cstep (V : Type) :=
| CWait                 (* still suspended on an await *)
| CReturn (v : V)       (* return v *)
| CRaise (e : exn).     (* raise e *)

(** What an asynchronous generator does at its n-th resumption. *)
Inductive astep (V : Type) :=
| AWait                 (* still suspended on an await *)
| AYield (v : V)        (* yield v *)
| ARaise (e : exn)      (* raise e *)
| AStop.                (* the generator body returns: StopAsyncIteration *)

Arguments CWait {V}.
Arguments CReturn {V} v.
Arguments CRaise {V} e.
Arguments AWait {V}.
Arguments AYield {V} v.
Arguments ARaise {V} e.
Arguments AStop {V}.

(** ** Values *)

Inductive value :=
| VNone
| VInt (z : Z)
| VStr (s : string)
| VCoroutine (co : nat -> cstep value)            (* inspect.iscoroutine *)
| VAsyncGen (ag : nat -> astep value)             (* inspect.isasyncgen *)
| VFuture (l : loop) (co : nat -> cstep value)    (* concurrent.futures.Future of a submitted coroutine *)
| VGenerator (ag : nat -> astep value)            (* generator object made by _make_sync_generator *)
| VTuple (items : list value)
| VDescriptor (name : string)                     (* the getset or member descriptor type() makes for a name *)
| VCell.                                          (* a closure cell *)

Abbreviation coroutine := (nat -> cstep value).
Abbreviation asyncgen := (nat -> astep value).

(** [inspect.iscoroutine] and [inspect.isasyncgen] *)
Definition iscoroutine (v : value) : bool :=
  match v with
  | VCoroutine _ => true
  | _ => false
  end.

Definition isasyncgen (v : value) : bool :=
  match v with
  | VAsyncGen _ => true
  | _ => false
  end.

(** ** The Synchronizer instance and its environment *)

Record World := mkWorld {
  _loop : option loop;          (* self._loop *)
  _thread : option nat;         (* self._thread, the last thread object created *)
  threads_started : nat;        (* calls of Thread.start() so far *)
  loops_created : nat;          (* calls of asyncio.new_event_loop() by this instance *)
  running_loop : option loop;   (* the loop running in the calling thread, if any *)
  futures_created : nat;        (* calls of asyncio.run_coroutine_threadsafe *)
  queues_created : nat          (* calls of queue.Queue() *)
}.

(** [Synchronizer.__init__] called from a thread whose running loop is
    [running]. *)
Definition __init__ (running : option loop) : World :=
  {| _loop := None; _thread := None; threads_started := 0; loops_created := 0;
     running_loop := running; futures_created := 0; queues_created := 0 |}.

(** ** Computations of the calling thread *)

Inductive result (A : Type) :=
| Ok (a : A)            (* normal return *)
| Raised (e : exn)      (* an exception propagates *)
| Blocked.              (* the calling thread is still blocked *)

Arguments Ok {A} a.
Arguments Raised {A} e.
Arguments Blocked {A}.

Definition M (A : Type) : Type := World -> result A * World.

#[global] Instance M_ret : MRet M := fun A a w => (Ok a, w).

#[global] Instance M_bind : MBind M := fun A B k m w =>
  match m w with
  | (Ok a, w') => k a w'
  | (Raised e, w') => (Raised e, w')
  | (Blocked, w') => (Blocked, w')
  end.

(** What [fut.result()] does once the task of a coroutine submitted with
    [asyncio.run_coroutine_threadsafe] has raised [e].  [Task.__step] stores
    a [SystemExit] or [KeyboardInterrupt] and raises it again, which ends
    [run_forever] and the loop's thread before the future of the caller is
    resolved: the caller stays blocked.  An [asyncio.CancelledError] cancels
    the task and with it the future, whose [result()] raises a new
    [concurrent.futures.CancelledError].  Any other exception is copied to
    the future through [_convert_future_exc], which replaces an object of
    exactly one of the three [concurrent.futures] classes by a new asyncio
    exception and hands every other object over as it is. *)
Definition Future_exception (e : exn) : result value :=
  match e with
  | ExitException _ => Blocked
  | _ =>
      if isinstance_CancelledError e then Raised FuturesCancelledError
      else match futures_class_of e with
           | Some c => Raised (ConvertedError c e)
           | None => Raised e
           end
  end.

(** The exceptions [fut.result()] raises as the objects they are: every
    exception that is not a [SystemExit], a [KeyboardInterrupt] or an
    [asyncio.CancelledError] and whose class is not exactly one of the three
    [concurrent.futures] classes. *)
Definition handed_over (e : exn) : bool :=
  match e with
  | ExitException _ => false
  | AsyncioCancelledError _ => false
  | FuturesError _ _ => false
  | FuturesCancelledError => false
  | ConvertedError FCancelledError _ => false
  | ConvertedError FTimeoutError _ => false
  | _ => true
  end.

Definition raise {A} (e : exn) : M A := fun w => (Raised e, w).
Definition get : M World := fun w => (Ok w, w).
Definition put (w : World) : M unit := fun _ => (Ok tt, w).

(** [try: body except C: handler] where [matches] is [isinstance(_, C)]. *)
Definition try_except {A} (body : M A) (matches : exn -> bool) (handler : exn -> M A) : M A :=
  fun w =>
    match body w with
    | (Raised e, w') => if matches e then handler e w' else (Raised e, w')
    | r => r
    end.

(** Positional and keyword arguments of a call. *)
Definition arguments : Type := list value * list (string * value).

(** A Python callable, run on the calling thread. *)
Definition callable : Type := arguments -> M value.

(** ** Scheduler host: [Synchronizer._get_loop] run without interference

    The calling thread starts the background thread and waits for
    [is_ready]; the background thread creates the loop, stores it in
    [self._loop] and sets [is_ready].  Seen from a caller that is not
    interleaved with other callers, the whole exchange is one step. *)
Definition _get_loop : M loop :=
  w ← get;
  match _loop w with
  | Some l => mret l
  | None =>
      let l := BridgeLoop (loops_created w) in
      _ ← put {| _loop := Some l;
                 _thread := Some (threads_started w);
                 threads_started := S (threads_started w);
                 loops_created := S (loops_created w);
                 running_loop := running_loop w;
                 futures_created := futures_created w;
                 queues_created := queues_created w |};
      mret l
  end.

(** ** Context detector *)

(** [asyncio.get_running_loop()] *)
Definition get_running_loop : M loop :=
  w ← get;
  match running_loop w with
  | Some l => mret l
  | None => raise RuntimeError_no_running_loop
  end.

Definition _is_async_context : M bool :=
  try_except (_ ← get_running_loop; mret true)
             isinstance_RuntimeError
             (fun _ => mret false).

(** ** Stream bridge: the pump

    [pump()] runs on the background loop.  Its state is its program point,
    the messages it has put on [q] so far (oldest first) and what
    [traceback.print_exc()] has written. *)

Inductive msg :=
| MsgGen (result : value)   (* ('gen', result) *)
| MsgExc (exc : exn)        (* ('exc', exc) *)
| MsgVal (res : value).     (* ('val', None) *)

Inductive pump_pc :=
| PumpIter (n : nat)     (* in [async for]: about to resume coro for the n-th time *)
| PumpExcept (exc : exn) (* entering the except clause *)
| PumpAfterTry           (* after the try statement *)
| PumpReturned           (* pump() returned *)
| PumpFailed (e : exn).  (* e propagated out of pump() *)

Record pump_state := mkPump {
  pc : pump_pc;
  q : list msg;
  stderr : list exn
}.

Definition pump_init : pump_state :=
  {| pc := PumpIter 0; q := []; stderr := [] |}.

Definition pump_step (coro : asyncgen) (s : pump_state) : pump_state :=
  match pc s with
  | PumpIter n =>
      match coro n with
      | AWait => {| pc := PumpIter (S n); q := q s; stderr := stderr s |}
      | AYield result =>
          {| pc := PumpIter (S n); q := q s ++ [MsgGen result]; stderr := stderr s |}
      | AStop => {| pc := PumpAfterTry; q := q s; stderr := stderr s |}
      | ARaise e =>
          if isinstance_Exception e
          then {| pc := PumpExcept e; q := q s; stderr := stderr s |}
          else {| pc := PumpFailed e; q := q s; stderr := stderr s |}
      end
  | PumpExcept exc =>
      {| pc := PumpAfterTry; q := q s ++ [MsgExc exc]; stderr := stderr s ++ [exc] |}
  | PumpAfterTry =>
      {| pc := PumpReturned; q := q s ++ [MsgVal VNone]; stderr := stderr s |}
  | PumpReturned => s
  | PumpFailed _ => s
  end.

(** The pump after the background loop has run it for [n] steps. *)
Definition pump_run (coro : asyncgen) (n : nat) : pump_state :=
  Nat.iter n (pump_step coro) pump_init.

(** A terminal message ends the consumer's iteration. *)
Definition is_terminal (m : msg) : bool :=
  match m with
  | MsgGen _ => false
  | MsgExc _ => true
  | MsgVal _ => true
  end.

(** ** World updates of the library calls *)

(** [asyncio.run_coroutine_threadsafe(_, loop)]: one more submission. *)
Definition run_coroutine_threadsafe (l : loop) : M unit :=
  w ← get;
  put {| _loop := _loop w; _thread := _thread w;
         threads_started := threads_started w;
         loops_created := loops_created w;
         running_loop := running_loop w;
         futures_created := S (futures_created w);
         queues_created := queues_created w |}.

(** [queue.Queue()] *)
Definition Queue : M unit :=
  w ← get;
  put {| _loop := _loop w; _thread := _thread w;
         threads_started := threads_started w;
         loops_created := loops_created w;
         running_loop := running_loop w;
         futures_created := futures_created w;
         queues_created := S (queues_created w) |}.

(** State of the generator object returned by [_make_sync_generator]. *)
Inductive gen_state :=
| GenCreated (coro : asyncgen)               (* body not started *)
| GenStarted (coro : asyncgen) (taken : nat) (* in the while loop, [taken] messages read *)
| GenFinished.

(** What [next(gen)] does. *)
Inductive next_result :=
| NextYield (v : value)
| NextStop (v : value)    (* StopIteration(v) *)
| NextRaise (e : exn)
| NextBlocked.            (* still blocked in q.get() *)

(** Class attributes: a function or another callable object, an object
    that is not callable, and the two wrappers [type()] puts around
    functions stored under special names. *)
Inductive member :=
| MCallable (f : callable)
| MData (v : value)
| MStaticmethod (f : callable)   (* staticmethod(f): callable, calling it calls f *)
| MClassmethod (f : callable).   (* classmethod(f): not callable itself *)

(** [callable(m)] *)
Definition member_callable (m : member) : bool :=
  match m with
  | MCallable _ => true
  | MData _ => false
  | MStaticmethod _ => true
  | MClassmethod _ => false
  end.

(** Calling a class attribute with the given arguments. *)
Definition call (m : member) : callable :=
  match m with
  | MCallable f => f
  | MData _ => fun _ => raise TypeError_not_callable
  | MStaticmethod f => f
  | MClassmethod _ => fun _ => raise TypeError_not_callable
  end.

(** A class: [__name__], the bases it names, and its own namespace
    [__dict__] in definition order.  Every class has [object] as its last
    base besides the ones listed; [object] itself and its attributes are not
    modelled. *)
Inductive pyclass :=
| PyClass (name : string) (bases : list pyclass) (dict : list (string * member)).

Definition cls_name (c : pyclass) : string := let 'PyClass n _ _ := c in n.
Definition cls_bases (c : pyclass) : list pyclass := let 'PyClass _ b _ := c in b.
Definition cls_dict (c : pyclass) : list (string * member) := let 'PyClass _ _ d := c in d.

(** [d[k]] and [d[k] = v] on an insertion-ordered dict. *)
Fixpoint dict_get {A} (k : string) (d : list (string * A)) : option A :=
  match d with
  | [] => None
  | (k', v) :: d' => if decide (k = k') then Some v else dict_get k d'
  end.

Fixpoint dict_set {A} (k : string) (v : A) (d : list (string * A)) : list (string * A) :=
  match d with
  | [] => [(k, v)]
  | (k', v') :: d' => if decide (k = k') then (k, v) :: d' else (k', v') :: dict_set k v d'
  end.

(** Attribute lookup on a class, for the names [object] does not define:
    its own namespace, then its bases from left to right. *)
Fixpoint getattr (c : pyclass) (k : string) : option member :=
  match c with
  | PyClass _ bases dict =>
      match dict_get k dict with
      | Some m => Some m
      | None =>
          (fix in_bases (bs : list pyclass) : option member :=
             match bs with
             | [] => None
             | b :: bs' =>
                 match getattr b k with
                 | Some m => Some m
                 | None => in_bases bs'
                 end
             end) bases
      end
  end.

(** ** [type(name, tuple(), dict)]

    The three-argument [type] with an empty tuple of bases, the one call the
    source makes: the new class has no base but [object].  What is modelled
    is the part that a copied namespace reaches:
    the treatment of [__slots__], the entries [__qualname__] and
    [__classcell__] that [type] checks and takes out of the namespace, the
    entries it supplies when they are absent, and the functions it turns
    into static and class methods.  Slot names are taken to be identifiers,
    as those of an existing class are, and the members to have no
    [__set_name__] hook. *)

(** [d.setdefault(k, v)] *)
Definition dict_setdefault {A} (k : string) (v : A) (d : list (string * A))
  : list (string * A) :=
  match dict_get k d with
  | Some _ => d
  | None => d ++ [(k, v)]
  end.

Fixpoint lstrip_underscores (s : string) : string :=
  match s with
  | String c s' => if Ascii.eqb c "_"%char then lstrip_underscores s' else s
  | EmptyString => s
  end.

Fixpoint ends_with_dunder (s : string) : bool :=
  match s with
  | EmptyString => false
  | String _ s' => if String.eqb s "__" then true else ends_with_dunder s'
  end.

Fixpoint has_dot (s : string) : bool :=
  match s with
  | EmptyString => false
  | String c s' => if Ascii.eqb c "."%char then true else has_dot s'
  end.

(** Name mangling of private names ([_Py_Mangle]). *)
Definition mangle (cls_name ident : string) : string :=
  if String.prefix "__" ident && negb (ends_with_dunder ident) && negb (has_dot ident)
  then match lstrip_underscores cls_name with
       | EmptyString => ident
       | stripped => ("_" ++ stripped ++ ident)%string
       end
  else ident.

(** The names listed by a [__slots__] entry that is a string or a tuple of
    strings; [None] for an entry that cannot be iterated or lists something
    that is not a string. *)
Definition slot_names (m : member) : option (list string) :=
  match m with
  | MData (VStr s) => Some [s]
  | MData (VTuple items) =>
      mapM (fun v => match v with VStr s => Some s | _ => None end) items
  | _ => None
  end.

(** The order of strings, by code point. *)
Definition string_le (a b : string) : Prop := String.leb a b = true.

#[global] Instance string_le_dec (a b : string) : Decision (string_le a b) :=
  (_ : Decision (String.leb a b = true)).

(** The names of the member descriptors [type] makes for the slots: the
    slot names other than [__dict__] and [__weakref__], mangled and sorted. *)
Definition member_slots (name : string) (names : list string) : list string :=
  merge_sort string_le
    (mangle name <$> filter (fun s => s <> "__dict__" /\ s <> "__weakref__") names).

(** The entries [type] supplies, in the order it adds them, each only when
    the namespace has no entry of that name. *)
Definition type_defaults (name : string) (slots : option (list string))
  : list (string * member) :=
  [("__module__", MData (VStr "synchronicity"))] ++
  match slots with
  | None =>
      [("__dict__", MData (VDescriptor "__dict__"));
       ("__weakref__", MData (VDescriptor "__weakref__"))]
  | Some names =>
      ((fun s => (s, MData (VDescriptor s))) <$> member_slots name names) ++
      (if decide ("__dict__" ∈ names)
       then [("__dict__", MData (VDescriptor "__dict__"))] else []) ++
      (if decide ("__weakref__" ∈ names)
       then [("__weakref__", MData (VDescriptor "__weakref__"))] else [])
  end ++
  [("__doc__", MData VNone)].

(** A function stored as [__new__] becomes a static method, one stored as
    [__init_subclass__] or [__class_getitem__] a class method.  The callables
    of the namespaces built here are all functions. *)
Definition type_convert (k : string) (m : member) : member :=
  match m with
  | MCallable f =>
      if decide (k = "__new__") then MStaticmethod f
      else if decide (k = "__init_subclass__" \/ k = "__class_getitem__")
      then MClassmethod f
      else m
  | _ => m
  end.

(** A slot name that is checked against the class variables. *)
Definition checked_slot (s : string) : bool :=
  bool_decide (s <> "__dict__" /\ s <> "__weakref__" /\
               s <> "__qualname__" /\ s <> "__classcell__").

Definition slots_conflict (name : string) (names : list string)
    (dict : list (string * member)) : bool :=
  existsb (fun s => checked_slot s && bool_decide (mangle name s ∈ dict.*1)) names.

Definition slots_repeat (names : list string) : bool :=
  bool_decide (1 < length (filter (fun s => s = "__dict__") names)) ||
  bool_decide (1 < length (filter (fun s => s = "__weakref__") names)).

(** The names whose entries [type] takes out of the namespace. *)
Definition type_consumes (k : string) : Prop :=
  k = "__qualname__" \/ k = "__classcell__".

#[global] Instance type_consumes_dec (k : string) : Decision (type_consumes k) :=
  (_ : Decision (k = "__qualname__" \/ k = "__classcell__")).

Definition type_ (name : string) (dict : list (string * member)) : M pyclass :=
  slots ← match dict_get "__slots__" dict with
          | None => mret None
          | Some m =>
              match slot_names m with
              | None => raise TypeError_slots
              | Some names =>
                  if slots_repeat names then raise TypeError_slots
                  else if slots_conflict name names dict then raise ValueError_slots_conflict
                  else mret (Some names)
              end
          end;
  _ ← match dict_get "__qualname__" dict with
      | None | Some (MData (VStr _)) => mret tt
      | Some _ => raise TypeError_qualname
      end;
  _ ← match dict_get "__classcell__" dict with
      | None | Some (MData VCell) => mret tt
      | Some _ => raise TypeError_classcell
      end;
  let kept := filter (fun km => ~ type_consumes km.1) dict in
  let converted := (fun '(k, m) => (k, type_convert k m)) <$> kept in
  mret (PyClass name []
          (foldl (fun d '(k, m) => dict_setdefault k m d) converted
                 (type_defaults name slots))).

(** ['Argument %s is not a class or a callable' % object]: a tuple on the
    right of [%] is the sequence of the arguments, and the format has
    exactly one. *)
Definition format_argument (object : value) : M unit :=
  match object with
  | VTuple [_] => mret tt
  | VTuple _ => raise TypeError_format_arguments
  | _ => mret tt
  end.

(** The argument of [Synchronizer.__call__]. *)
Inductive object :=
| OClass (cls : pyclass)
| OCallable (f : callable)
| OValue (v : value).

(** [inspect.isclass] *)
Definition isclass (o : object) : bool :=
  match o with
  | OClass _ => true
  | _ => false
  end.

(** [callable(o)]: classes and functions can be called, plain data cannot. *)
Definition is_callable (o : object) : bool :=
  match o with
  | OClass _ => true
  | OCallable _ => true
  | OValue _ => false
  end.

Section Bridge.

(** How many steps the background loop makes while the calling thread
    waits; a wait that is not over by then is reported as [Blocked]. *)
Variable ticks : nat.

(** *** Call bridge *)

(** [fut.result()] for the future of [coro], whose task is resumed for the
    n-th time next. *)
Fixpoint await_result (coro : coroutine) (n fuel : nat) : result value :=
  match fuel with
  | 0 => Blocked
  | S fuel' =>
      match coro n with
      | CWait => await_result coro (S n) fuel'
      | CReturn v => Ok v
      | CRaise e => Future_exception e
      end
  end.

Definition Future_result (coro : coroutine) : M value :=
  fun w => (await_result coro 0 ticks, w).

Definition _make_sync_function (coro : coroutine) (return_future : bool) : M value :=
  loop ← _get_loop;
  _ ← run_coroutine_threadsafe loop;
  if return_future then mret (VFuture loop coro)
  else Future_result coro.

(** *** Stream bridge *)

(** Calling the generator function only creates the generator object. *)
Definition _make_sync_generator (coro : asyncgen) : M value :=
  mret (VGenerator coro).

(** One round of the [while True] loop: [q.get()] and the dispatch on the
    tag. *)
Definition gen_loop (coro : asyncgen) (taken : nat) : next_result * gen_state :=
  match q (pump_run coro ticks) !! taken with
  | None => (NextBlocked, GenStarted coro taken)
  | Some (MsgVal res) => (NextStop res, GenFinished)
  | Some (MsgExc res) => (NextRaise res, GenFinished)
  | Some (MsgGen res) => (NextYield res, GenStarted coro (S taken))
  end.

(** [next(gen)] *)
Definition gen_next (st : gen_state) : M (next_result * gen_state) :=
  match st with
  | GenCreated coro =>
      loop ← _get_loop;
      _ ← Queue;
      _ ← run_coroutine_threadsafe loop;
      mret (gen_loop coro 0)
  | GenStarted coro taken => mret (gen_loop coro taken)
  | GenFinished => mret (NextStop VNone, GenFinished)
  end.

(** *** Callable adapter *)

Definition _wrap_callable (f : member) (return_future : bool) : callable :=
  fun args =>
    res ← call f args;
    in_async ← _is_async_context;
    if (in_async : bool) then mret res
    else match res with
         | VCoroutine coro => _make_sync_function coro return_future
         | VAsyncGen coro => _make_sync_generator coro
         | _ => mret res
         end.

(** *** Type adapter *)

(** The body of the loop over [cls.__dict__.items()]. *)
Definition _wrap_class_body (new_dict : list (string * member)) (item : string * member)
  : list (string * member) :=
  let '(k, v) := item in
  if decide (k = "__aenter__")
  then dict_set "__enter__" (MCallable (_wrap_callable v false)) new_dict
  else if decide (k = "__aexit__")
  then dict_set "__exit__" (MCallable (_wrap_callable v false)) new_dict
  else if member_callable v
  then dict_set k (MCallable (_wrap_callable v true)) new_dict
  else dict_set k v new_dict.

Definition _wrap_class (cls : pyclass) : M pyclass :=
  let new_dict := [] in
  let cls_name := cls_name cls in
  let cls_new_name := (cls_name ++ "Synchronized")%string in
  let new_dict := foldl _wrap_class_body new_dict (cls_dict cls) in
  cls_new ← type_ cls_new_name new_dict;
  mret cls_new.

(** *** Entry point *)

Definition __call__ (o : object) : M object :=
  match o with
  | OClass cls =>                       (* inspect.isclass(object) *)
      cls_new ← _wrap_class cls;
      mret (OClass cls_new)
  | OCallable f =>                      (* callable(object) *)
      mret (OCallable (_wrap_callable (MCallable f) true))
  | OValue v =>                         (* else *)
      _ ← format_argument v;
      raise ArgumentNotClassOrCallable
  end.

End Bridge.

(** ** Auxiliary definitions used in the statements *)

(** The calling thread runs on the loop this Synchronizer owns. *)
Definition on_own_scheduler (w : World) : Prop :=
  exists l, _loop w = Some l /\ running_loop w = Some l.

(** The world after the call bridge obtained the loop and submitted a
    coroutine to it. *)
Definition submitted (w : World) : World :=
  snd ((loop ← _get_loop; run_coroutine_threadsafe loop) w).

(** A coroutine function [bar(x) = x * 2] whose coroutine is suspended twice
    before it returns. *)
Definition double_later : callable := fun args =>
  match args with
  | ([VInt x], []) =>
      mret (VCoroutine (fun n => if decide (n < 2) then CWait else CReturn (VInt (x * 2))))
  | _ => raise TypeError_not_callable
  end.

(** An ordinary function [double(x) = x * 2]. *)
Definition double_now : callable := fun args =>
  match args with
  | ([VInt x], []) => mret (VInt (x * 2))
  | _ => raise TypeError_not_callable
  end.

(** A function that raises before it returns anything. *)
Definition fails_now : callable := fun _ => raise (UserException 3).

(** A coroutine function whose coroutine raises [e] when it is first
    resumed. *)
Definition raises_later (e : exn) : callable := fun _ =>
  mret (VCoroutine (fun _ => CRaise e)).

(** The calling thread is itself running on the Synchronizer's loop. *)
Definition nested_world : World :=
  {| _loop := Some (BridgeLoop 0); _thread := Some 0; threads_started := 1;
     loops_created := 1; running_loop := Some (BridgeLoop 0);
     futures_created := 1; queues_created := 0 |}.

(** What the queue holds at each program point of the pump: the items
    yielded so far, then possibly the exception, then possibly the final
    ('val', None). *)
Definition pump_inv (s : pump_state) : Prop :=
  exists items : list value,
    match pc s with
    | PumpIter _ | PumpExcept _ | PumpFailed _ => q s = MsgGen <$> items
    | PumpAfterTry =>
        q s = MsgGen <$> items \/
        exists e, q s = ((MsgGen <$> items) ++ [MsgExc e])%list
    | PumpReturned =>
        q s = ((MsgGen <$> items) ++ [MsgVal VNone])%list \/
        exists e, q s = (((MsgGen <$> items) ++ [MsgExc e]) ++ [MsgVal VNone])%list
    end.

(** A generator whose first resumption raises an ordinary exception. *)
Definition fails_at_once : asyncgen := fun _ => ARaise (UserException 0).

(** The generator yields [v] at its i-th resumption, raises [E] at its j-th
    one, and is merely suspended at all others before. *)
Definition yields_then_raises (coro : asyncgen) (i j : nat) (v : value) (E : exn) : Prop :=
  i < j /\ coro i = AYield v /\ coro j = ARaise E /\
  forall k, k < j -> k <> i -> coro k = AWait.

(** The world after the generator body obtained the loop, created its queue
    and submitted the pump. *)
Definition pump_started (w : World) : World :=
  snd ((loop ← _get_loop; _ ← Queue; run_coroutine_threadsafe loop) w).

(** A generator function: [yield 1] and then [raise E]. *)
Definition one_then_raise (E : exn) : callable := fun _ =>
  mret (VAsyncGen (fun n => match n with 0 => AYield (VInt 1) | _ => ARaise E end)).

(** The name under which the facade stores the member named [k]. *)
Definition facade_key (k : string) : string :=
  if decide (k = "__aenter__") then "__enter__"
  else if decide (k = "__aexit__") then "__exit__"
  else k.

(** What the facade stores for the member [v] named [k]. *)
Definition facade_value (ticks : nat) (k : string) (v : member) : member :=
  if decide (k = "__aenter__" \/ k = "__aexit__")
  then MCallable (_wrap_callable ticks v false)
  else if member_callable v then MCallable (_wrap_callable ticks v true)
  else v.

(** What a class statement without bases and without [__slots__] leaves in
    [cls.__dict__]: [__module__], the names bound in the body, and the
    entries [type] supplied. *)
Definition class_namespace (body : list (string * member)) : list (string * member) :=
  [("__module__", MData (VStr "__main__"))] ++ body ++
  [("__dict__", MData (VDescriptor "__dict__"));
   ("__weakref__", MData (VDescriptor "__weakref__"));
   ("__doc__", MData VNone)].

(** The same for a class statement with a base of that kind: [__dict__] and
    [__weakref__] are inherited. *)
Definition subclass_namespace (body : list (string * member)) : list (string * member) :=
  [("__module__", MData (VStr "__main__"))] ++ body ++ [("__doc__", MData VNone)].

(** A class with an asynchronous method and a class attribute. *)
Definition Foo : pyclass :=
  PyClass "Foo" []
    (class_namespace [("bar", MCallable double_later); ("limit", MData (VInt 10))]).


(** A class with the asynchronous context manager methods. *)
Definition Resource : pyclass :=
  PyClass "Resource" []
    (class_namespace
       [("__aenter__", MCallable double_later); ("__aexit__", MCallable double_later)]).


(** A subclass that inherits the context manager methods. *)
Definition SubResource : pyclass :=
  PyClass "SubResource" [Resource] (subclass_namespace []).

(** A class that defines [__aenter__] and, after it, an attribute
    [__enter__] of its own. *)
Definition Both : pyclass :=
  PyClass "Both" []
    (class_namespace
       [("__aenter__", MCallable double_later); ("__enter__", MData (VInt 0))]).

(** ** Scheduler host: [_get_loop] called from several threads

    Every call of [_get_loop] is a caller thread and, once started, the
    background thread it created.  A step is one statement of one thread;
    any thread that can move may be the next to move. *)

Module Race.

(** Where a calling thread is in [_get_loop]. *)
Inductive caller_pc :=
| AtCheck                       (* line 19: if self._loop is not None *)
| AtStart                       (* lines 22-30: create is_ready, create and start the thread *)
| AtWait                        (* line 31: is_ready.wait() *)
| AtReturn                      (* lines 20 and 32: return self._loop *)
| Returned (l : option loop).   (* the call returned l *)

(** Where the background thread of a call is in [run_forever]. *)
Inductive runner_pc :=
| NotStarted
| AtNewLoop     (* line 25: self._loop = asyncio.new_event_loop() *)
| AtSet         (* line 26: is_ready.set() *)
| Running.      (* line 27: self._loop.run_forever() *)

(** One call of [_get_loop]: its caller, its [is_ready] event and the thread
    it may have started. *)
Record call := mkCall {
  caller : caller_pc;
  is_ready : bool;
  runner : runner_pc
}.

Record state := mkState {
  world : World;
  calls : list call
}.

Inductive thread :=
| Caller (i : nat)
| Runner (i : nat).

(** [Thread(...).start()] by the caller. *)
Definition start_thread (w : World) : World :=
  {| _loop := _loop w;
     _thread := Some (threads_started w);
     threads_started := S (threads_started w);
     loops_created := loops_created w;
     running_loop := running_loop w;
     futures_created := futures_created w;
     queues_created := queues_created w |}.

(** [self._loop = asyncio.new_event_loop()] by the background thread. *)
Definition new_event_loop (w : World) : World :=
  {| _loop := Some (BridgeLoop (loops_created w));
     _thread := _thread w;
     threads_started := threads_started w;
     loops_created := S (loops_created w);
     running_loop := running_loop w;
     futures_created := futures_created w;
     queues_created := queues_created w |}.

(** One statement of thread [t]; [None] when [t] cannot move: it does not
    exist, it has finished, or it waits for an event that is not set. *)
Definition step (t : thread) (s : state) : option state :=
  match t with
  | Caller i =>
      c ← calls s !! i;
      match caller c with
      | AtCheck =>
          let pc' := match _loop (world s) with Some _ => AtReturn | None => AtStart end in
          Some (mkState (world s) (<[i := mkCall pc' (is_ready c) (runner c)]> (calls s)))
      | AtStart =>
          Some (mkState (start_thread (world s))
                        (<[i := mkCall AtWait false AtNewLoop]> (calls s)))
      | AtWait =>
          if is_ready c
          then Some (mkState (world s) (<[i := mkCall AtReturn (is_ready c) (runner c)]> (calls s)))
          else None
      | AtReturn =>
          Some (mkState (world s)
                        (<[i := mkCall (Returned (_loop (world s))) (is_ready c) (runner c)]> (calls s)))
      | Returned _ => None
      end
  | Runner i =>
      c ← calls s !! i;
      match runner c with
      | NotStarted => None
      | AtNewLoop =>
          Some (mkState (new_event_loop (world s))
                        (<[i := mkCall (caller c) (is_ready c) AtSet]> (calls s)))
      | AtSet =>
          Some (mkState (world s) (<[i := mkCall (caller c) true Running]> (calls s)))
      | Running => None
      end
  end.

(** Run a schedule; a thread that cannot move when it is scheduled is
    skipped. *)
Definition run (sched : list thread) (s : state) : state :=
  foldl (fun s t => default s (step t s)) s sched.

(** [n] calls that have not begun, on an instance in world [w]. *)
Definition init (n : nat) (w : World) : state :=
  mkState w (replicate n (mkCall AtCheck false NotStarted)).

(** What the calls have returned so far. *)
Definition returned (s : state) : list (option loop) :=
  omap (fun c => match caller c with Returned l => Some l | _ => None end) (calls s).

(** The schedule of one call that runs alone. *)
Definition alone (i : nat) : list thread :=
  [Caller i; Caller i; Runner i; Runner i; Caller i; Caller i].



End Race.

(** ** Further definitions used in the statements *)

(** A coroutine function whose coroutine never finishes. *)
Definition never_returns : callable := fun _ =>
  mret (VCoroutine (fun _ => CWait)).


(** The items the generator yields in its first [n] resumptions, in order. *)
Definition yielded (coro : asyncgen) (n : nat) : list value :=
  omap (fun k => match coro k with AYield v => Some v | _ => None end) (seq 0 n).

(** In its first [n] resumptions the generator neither finishes nor raises. *)
Definition still_running (coro : asyncgen) (n : nat) : Prop :=
  forall k, k < n -> coro k = AWait \/ exists v, coro k = AYield v.

(** The payload of an item message, and of an error message. *)
Definition msg_item (m : msg) : option value :=
  match m with
  | MsgGen v => Some v
  | _ => None
  end.

Definition msg_exc (m : msg) : option exn :=
  match m with
  | MsgExc e => Some e
  | _ => None
  end.

(** An asynchronous generator: [yield 1], an await, [yield 2], [yield 3],
    then the end of its body. *)
Definition one_two_three : asyncgen := fun n =>
  match n with
  | 0 => AYield (VInt 1)
  | 1 => AWait
  | 2 => AYield (VInt 2)
  | 3 => AYield (VInt 3)
  | _ => AStop
  end.

(** An asynchronous generator: [yield 1], then a failure [E]. *)
Definition one_then (E : exn) : asyncgen := fun n =>
  match n with
  | 0 => AYield (VInt 1)
  | _ => ARaise E
  end.

(** ** Concurrent calls of [_get_loop]: reachable states *)










(** * Properties *)

(** ** Evaluation lemmas *)

Lemma _is_async_context_eval (w : World) :
  _is_async_context w = (Ok (bool_decide (is_Some (running_loop w))), w).
Proof.
  unfold _is_async_context, try_except, get_running_loop, get, raise.
  unfold mbind, M_bind, mret, M_ret.
  destruct (running_loop w) as [l|]; reflexivity.
Qed.

Lemma _get_loop_started (w : World) (l : loop) :
  _loop w = Some l -> _get_loop w = (Ok l, w).
Proof.
  intros H. unfold _get_loop, get, mbind, M_bind, mret, M_ret. rewrite H. reflexivity.
Qed.

(** ** Context detector *)

(** C2 (as amended): [_is_async_context] returns true exactly when some event
    loop is running in the calling thread, whichever loop it is; it never
    raises and changes nothing. *)
Theorem is_async_context_any_running_loop (w : World) :
  (exists b, _is_async_context w = (Ok b, w)) /\
  (fst (_is_async_context w) = Ok true <-> exists l, running_loop w = Some l).
Proof.
  rewrite _is_async_context_eval. split; [eauto|]. simpl.
  destruct (running_loop w) as [l|]; simpl.
  - split; eauto.
  - split; [discriminate|]. intros [l Hl]. discriminate.
Qed.

(** Running on the Synchronizer's own loop is one way of being in an
    asynchronous context. *)
Lemma _is_async_context_own_loop (w : World) :
  on_own_scheduler w -> fst (_is_async_context w) = Ok true.
Proof.
  intros (l & _ & Hl). rewrite _is_async_context_eval, Hl. reflexivity.
Qed.

(** C2 (counterexample): a caller running inside a loop of its own, here
    [ForeignLoop 0], after the background loop [BridgeLoop 0] was started:
    the detector answers true although the caller is not on the
    Synchronizer's scheduler. *)
Lemma is_async_context_foreign_loop :
  let w := snd (_get_loop (__init__ (Some (ForeignLoop 0)))) in
  _loop w = Some (BridgeLoop 0) /\
  running_loop w = Some (ForeignLoop 0) /\
  ~ (fst (_is_async_context w) = Ok true <-> on_own_scheduler w).
Proof.
  simpl. split; [reflexivity|]. split; [reflexivity|].
  intros [H _]. destruct (H eq_refl) as (l & H1 & H2).
  simpl in H1, H2. congruence.
Qed.

(** ** Entry point *)

(** What [type] can do with a namespace: one of its four errors, or the
    class, for a namespace whose [__qualname__] and [__classcell__], if any,
    are a string and a cell. *)
Lemma type__cases name d w :
  (exists e,
     (e = TypeError_slots \/ e = ValueError_slots_conflict \/
      e = TypeError_qualname \/ e = TypeError_classcell) /\
     type_ name d w = (Raised e, w)) \/
  exists slots,
    type_ name d w
    = (Ok (PyClass name []
             (foldl (fun d '(k, m) => dict_setdefault k m d)
                    ((fun '(k, m) => (k, type_convert k m))
                       <$> filter (fun km => ~ type_consumes km.1) d)
                    (type_defaults name slots))), w) /\
    (dict_get "__slots__" d = None -> slots = None) /\
    (forall m, dict_get "__qualname__" d = Some m -> exists s, m = MData (VStr s)) /\
    (forall m, dict_get "__classcell__" d = Some m -> m = MData VCell).
Proof.
  assert (Hrest : forall slots,
    (dict_get "__slots__" d = None -> slots = None) ->
    (exists e,
       (e = TypeError_slots \/ e = ValueError_slots_conflict \/
        e = TypeError_qualname \/ e = TypeError_classcell) /\
       (_ ← match dict_get "__qualname__" d with
            | None | Some (MData (VStr _)) => mret tt
            | Some _ => raise TypeError_qualname
            end;
        _ ← match dict_get "__classcell__" d with
            | None | Some (MData VCell) => mret tt
            | Some _ => raise TypeError_classcell
            end;
        mret (PyClass name []
                (foldl (fun d '(k, m) => dict_setdefault k m d)
                       ((fun '(k, m) => (k, type_convert k m))
                          <$> filter (fun km => ~ type_consumes km.1) d)
                       (type_defaults name slots)))) w = (Raised e, w)) \/
    (_ ← match dict_get "__qualname__" d with
         | None | Some (MData (VStr _)) => mret tt
         | Some _ => raise TypeError_qualname
         end;
     _ ← match dict_get "__classcell__" d with
         | None | Some (MData VCell) => mret tt
         | Some _ => raise TypeError_classcell
         end;
     mret (PyClass name []
             (foldl (fun d '(k, m) => dict_setdefault k m d)
                    ((fun '(k, m) => (k, type_convert k m))
                       <$> filter (fun km => ~ type_consumes km.1) d)
                    (type_defaults name slots)))) w
    = (Ok (PyClass name []
             (foldl (fun d '(k, m) => dict_setdefault k m d)
                    ((fun '(k, m) => (k, type_convert k m))
                       <$> filter (fun km => ~ type_consumes km.1) d)
                    (type_defaults name slots))), w) /\
    (forall m, dict_get "__qualname__" d = Some m -> exists s, m = MData (VStr s)) /\
    (forall m, dict_get "__classcell__" d = Some m -> m = MData VCell)).
  { intros slots _. unfold mbind, M_bind, mret, M_ret, raise.
    destruct (dict_get "__qualname__" d) as [mq|];
      [destruct mq as [fq|vq|fq|fq]; [|destruct vq|..]|];
      try (left; eexists; split; [|reflexivity]; tauto);
      (destruct (dict_get "__classcell__" d) as [mc|];
       [destruct mc as [fc|vc|fc|fc]; [|destruct vc|..]|];
       try (left; eexists; split; [|reflexivity]; tauto));
      right; (split; [reflexivity|]); split; intros m Hm;
      solve [discriminate | injection Hm as <-; eauto]. }
  unfold type_. unfold mbind at 1, M_bind at 1.
  destruct (dict_get "__slots__" d) as [m|].
  - destruct (slot_names m) as [names|];
      [|left; eexists; split; [|reflexivity]; tauto].
    destruct (slots_repeat names); [left; eexists; split; [|reflexivity]; tauto|].
    destruct (slots_conflict name names d);
      [left; eexists; split; [|reflexivity]; tauto|].
    destruct (Hrest (Some names)) as [H|(H & Hq & Hc)]; [discriminate|by left|].
    right. exists (Some names). split; [exact H|]. split; [discriminate|done].
  - destruct (Hrest None) as [H|(H & Hq & Hc)]; [done|by left|].
    right. exists None. by split; [exact H|].
Qed.

Lemma _wrap_class_type ticks T w :
  _wrap_class ticks T w
  = type_ (cls_name T ++ "Synchronized")%string
      (foldl (_wrap_class_body ticks) [] (cls_dict T)) w.
Proof.
  unfold _wrap_class, mbind, M_bind, mret, M_ret.
  by destruct (type_ _ _ w) as [[c|e|] w'].
Qed.

Lemma _wrap_class_cases ticks T w :
  (exists e,
     (e = TypeError_slots \/ e = ValueError_slots_conflict \/
      e = TypeError_qualname \/ e = TypeError_classcell) /\
     _wrap_class ticks T w = (Raised e, w)) \/
  exists facade, _wrap_class ticks T w = (Ok facade, w).
Proof.
  rewrite _wrap_class_type.
  destruct (type__cases (cls_name T ++ "Synchronized")%string
              (foldl (_wrap_class_body ticks) [] (cls_dict T)) w)
    as [H|(slots & H & _)]; [by left|]. right. by eexists.
Qed.

(** [__call__] raises the not-a-class-or-callable exception exactly for the
    arguments that are neither a class nor callable and are not a tuple of a
    length other than 1; it never touches the instance. *)
Lemma call_invalid_argument (ticks : nat) (o : object) (w : World) :
  (__call__ ticks o w = (Raised ArgumentNotClassOrCallable, w)
   <-> exists v, o = OValue v /\ forall items, v = VTuple items -> length items = 1) /\
  (exists r, __call__ ticks o w = (r, w)).
Proof.
  destruct o as [cls|f|v]; simpl.
  - unfold mbind, M_bind.
    destruct (_wrap_class_cases ticks cls w) as [(e & He & H)|[facade H]]; rewrite H;
      (split; [|by eexists]); (split; [|by intros (? & ? & _)]).
    + intros Heq. destruct He as [->|[->|[->| ->]]]; discriminate.
    + discriminate.
  - split; [|by eexists]. split; [discriminate|]. by intros (? & ? & _).
  - unfold mbind, M_bind, format_argument.
    destruct v as [| | | | | | |items| |]; simpl;
      try (split; [|by eexists]; split; [intros _|done];
           eexists; split; [done|]; intros ? ?; discriminate).
    destruct items as [|x [|y items]]; simpl;
      (split; [|by eexists]); split; try discriminate.
    + intros (v & Hv & Hlen). injection Hv as <-. by specialize (Hlen [] eq_refl).
    + intros _. eexists. split; [done|]. intros items H. by injection H as <-.
    + done.
    + intros (v & Hv & Hlen). injection Hv as <-.
      by specialize (Hlen (x :: y :: items) eq_refl).
Qed.

(** [wrap(42)] *)
Lemma call_invalid_argument_42 :
  __call__ 0 (OValue (VInt 42)) (__init__ None)
  = (Raised ArgumentNotClassOrCallable, __init__ None).
Proof. reflexivity. Qed.

(** C9 (the code at the failing inputs): a tuple whose length is not 1 is
    neither a class nor callable, yet [__call__] does not raise the
    not-a-class-or-callable exception for it: building the message with [%]
    raises a TypeError first. *)
Theorem call_tuple_argument (ticks : nat) (items : list value) (w : World) :
  length items <> 1 ->
  isclass (OValue (VTuple items)) = false /\
  is_callable (OValue (VTuple items)) = false /\
  __call__ ticks (OValue (VTuple items)) w = (Raised TypeError_format_arguments, w).
Proof.
  intros Hlen. split; [done|]. split; [done|].
  destruct items as [|x [|y items]]; simpl in *; done.
Qed.

Lemma call_tuple_argument_witness :
  __call__ 0 (OValue (VTuple [VInt 1; VInt 2])) (__init__ None)
  = (Raised TypeError_format_arguments, __init__ None).
Proof.
  apply (call_tuple_argument 0 [VInt 1; VInt 2] (__init__ None)). simpl. lia.
Defined.

(** ** Callable adapter *)

(** The adapter after the target returned [res] in world [w1]. *)
Lemma _wrap_callable_after_target ticks f return_future args w res w1 :
  call f args w = (Ok res, w1) ->
  _wrap_callable ticks f return_future args w =
    if bool_decide (is_Some (running_loop w1)) then (Ok res, w1)
    else match res with
         | VCoroutine coro => _make_sync_function ticks coro return_future w1
         | VAsyncGen coro => _make_sync_generator coro w1
         | _ => (Ok res, w1)
         end.
Proof.
  intros Hf. unfold _wrap_callable. unfold mbind at 1, M_bind at 1. rewrite Hf.
  unfold mbind at 1, M_bind at 1. rewrite _is_async_context_eval.
  destruct (bool_decide _); [reflexivity|].
  destruct res; reflexivity.
Qed.

(** C5: for a target that returns a value that is neither a coroutine nor an
    asynchronous generator, the wrapper made by [__call__] returns that very
    value and leaves the world exactly as the target left it: in particular
    it starts no thread. *)
Theorem wrap_sync_callable ticks (f : callable) args w0 w v w1 :
  f args w = (Ok v, w1) ->
  iscoroutine v = false ->
  isasyncgen v = false ->
  exists g,
    __call__ ticks (OCallable f) w0 = (Ok (OCallable g), w0) /\
    g args w = (Ok v, w1) /\
    threads_started (snd (g args w)) = threads_started (snd (f args w)) /\
    _loop (snd (g args w)) = _loop (snd (f args w)).
Proof.
  intros Hf Hc Hg. eexists. split; [reflexivity|].
  assert (E : _wrap_callable ticks (MCallable f) true args w = (Ok v, w1)).
  { rewrite (_wrap_callable_after_target ticks (MCallable f) true args w v w1 Hf).
    destruct (bool_decide _); [reflexivity|].
    destruct v; try reflexivity; discriminate. }
  rewrite E, Hf. auto.
Qed.

Lemma wrap_sync_callable_witness :
  exists g,
    __call__ 5 (OCallable double_now) (__init__ None) = (Ok (OCallable g), __init__ None) /\
    g ([VInt 3], []) (__init__ None) = (Ok (VInt 6), __init__ None) /\
    threads_started (snd (g ([VInt 3], []) (__init__ None)))
      = threads_started (snd (double_now ([VInt 3], []) (__init__ None))) /\
    _loop (snd (g ([VInt 3], []) (__init__ None)))
      = _loop (snd (double_now ([VInt 3], []) (__init__ None))).
Proof.
  exact (wrap_sync_callable 5 double_now ([VInt 3], []) (__init__ None) (__init__ None)
           (VInt 6) (__init__ None) eq_refl eq_refl eq_refl).
Defined.

(** C10: an exception raised by the target itself propagates unchanged out
    of the wrapper, and the wrapper does nothing else: the world is the one
    the target left, so no thread is started, nothing is submitted to a loop
    and no queue is created. *)
Theorem wrap_callable_target_raises ticks (f : member) return_future args w e w1 :
  call f args w = (Raised e, w1) ->
  _wrap_callable ticks f return_future args w = (Raised e, w1) /\
  threads_started (snd (_wrap_callable ticks f return_future args w)) = threads_started w1 /\
  futures_created (snd (_wrap_callable ticks f return_future args w)) = futures_created w1 /\
  queues_created (snd (_wrap_callable ticks f return_future args w)) = queues_created w1.
Proof.
  intros Hf.
  assert (E : _wrap_callable ticks f return_future args w = (Raised e, w1)).
  { unfold _wrap_callable. unfold mbind at 1, M_bind at 1. rewrite Hf. reflexivity. }
  rewrite E. auto.
Qed.

Lemma wrap_callable_target_raises_witness :
  _wrap_callable 5 (MCallable fails_now) true ([], []) (__init__ None)
    = (Raised (UserException 3), __init__ None) /\
  threads_started (snd (_wrap_callable 5 (MCallable fails_now) true ([], []) (__init__ None)))
    = threads_started (__init__ None) /\
  futures_created (snd (_wrap_callable 5 (MCallable fails_now) true ([], []) (__init__ None)))
    = futures_created (__init__ None) /\
  queues_created (snd (_wrap_callable 5 (MCallable fails_now) true ([], []) (__init__ None)))
    = queues_created (__init__ None).
Proof.
  exact (wrap_callable_target_raises 5 (MCallable fails_now) true ([], []) (__init__ None)
           (UserException 3) (__init__ None) eq_refl).
Defined.

(** ** Call bridge *)

Lemma await_result_skip (coro : coroutine) (d : nat) :
  forall i fuel,
    (forall k, i <= k < i + d -> coro k = CWait) ->
    await_result coro i (d + fuel) = await_result coro (i + d) fuel.
Proof.
  induction d as [|d IH]; intros i fuel Hw.
  - simpl. f_equal. lia.
  - simpl. rewrite (Hw i) by lia. rewrite IH.
    + f_equal. lia.
    + intros k Hk. apply Hw. lia.
Qed.

Lemma await_result_blocked (coro : coroutine) (fuel : nat) :
  forall i,
    (forall k, i <= k < i + fuel -> coro k = CWait) ->
    await_result coro i fuel = Blocked.
Proof.
  induction fuel as [|fuel IH]; intros i Hw; [reflexivity|].
  simpl. rewrite (Hw i) by lia. apply IH. intros k Hk. apply Hw. lia.
Qed.

(** [fut.result()] on a coroutine that is suspended for its first [n]
    resumptions: the caller is blocked as long as the loop made at most [n]
    steps, and gets what the n-th resumption produces afterwards. *)
Lemma await_result_resolved (coro : coroutine) (n ticks : nat) :
  (forall k, k < n -> coro k = CWait) ->
  await_result coro 0 ticks =
    if decide (n < ticks)
    then match coro n with
         | CWait => await_result coro (S n) (ticks - S n)
         | CReturn v => Ok v
         | CRaise e => Future_exception e
         end
    else Blocked.
Proof.
  intros Hw. destruct (decide (n < ticks)) as [Hlt|Hge].
  - replace ticks with (n + S (ticks - S n)) at 1 by lia.
    rewrite await_result_skip by (intros k Hk; apply Hw; lia).
    reflexivity.
  - apply await_result_blocked. intros k Hk. apply Hw. lia.
Qed.

Lemma _make_sync_function_eval ticks coro return_future w :
  _make_sync_function ticks coro return_future w =
    (if return_future
     then Ok (VFuture (default (BridgeLoop (loops_created w)) (_loop w)) coro)
     else await_result coro 0 ticks,
     submitted w).
Proof.
  unfold _make_sync_function, submitted, _get_loop, run_coroutine_threadsafe,
    Future_result, get, put.
  unfold mbind, M_bind, mret, M_ret.
  destruct (_loop w), return_future; reflexivity.
Qed.

Lemma submitted_futures (w : World) :
  futures_created (submitted w) = S (futures_created w).
Proof.
  unfold submitted, _get_loop, run_coroutine_threadsafe, get, put.
  unfold mbind, M_bind, mret, M_ret.
  destruct (_loop w); reflexivity.
Qed.

(** The adapter made with [return_future = False], outside a running event
    loop, for a target that returned a coroutine suspended for its first [n]
    resumptions. *)
Lemma _wrap_callable_blocking ticks (f : member) args w w1 (coro : coroutine) n :
  call f args w = (Ok (VCoroutine coro), w1) ->
  running_loop w1 = None ->
  (forall k, k < n -> coro k = CWait) ->
  _wrap_callable ticks f false args w =
    (if decide (n < ticks)
     then match coro n with
          | CWait => await_result coro (S n) (ticks - S n)
          | CReturn v => Ok v
          | CRaise e => Future_exception e
          end
     else Blocked,
     submitted w1).
Proof.
  intros Hf Hctx Hw.
  rewrite (_wrap_callable_after_target ticks f false args w _ w1 Hf).
  rewrite Hctx. simpl. rewrite _make_sync_function_eval.
  by rewrite (await_result_resolved coro n ticks Hw).
Qed.

(** C4 (as amended): outside a running event loop, the wrapper made with
    [return_future = False] for a target that returns a coroutine submits the
    coroutine, blocks the caller until the coroutine finishes, and then
    returns the value the coroutine returns or, when the coroutine raised an
    exception that the future hands over as it is, raises that very
    exception object. *)
Theorem wrap_callable_blocking_call ticks (f : member) args w w1 (coro : coroutine) n :
  call f args w = (Ok (VCoroutine coro), w1) ->
  running_loop w1 = None ->
  (forall k, k < n -> coro k = CWait) ->
  (forall v, coro n = CReturn v -> n < ticks ->
     _wrap_callable ticks f false args w = (Ok v, submitted w1)) /\
  (forall e, coro n = CRaise e -> handed_over e = true -> n < ticks ->
     _wrap_callable ticks f false args w = (Raised e, submitted w1)) /\
  (ticks <= n ->
     _wrap_callable ticks f false args w = (Blocked, submitted w1)) /\
  futures_created (submitted w1) = S (futures_created w1).
Proof.
  intros Hf Hctx Hw.
  rewrite (_wrap_callable_blocking ticks f args w w1 coro n Hf Hctx Hw).
  repeat split.
  - intros v Hv Hlt. rewrite Hv. destruct (decide (n < ticks)); [reflexivity|lia].
  - intros e He Hh Hlt. rewrite He. destruct (decide (n < ticks)); [|lia].
    destruct e as [| | | | |c ?| | | | | | | | |]; try done. by destruct c.
  - intros Hge. destruct (decide (n < ticks)); [lia|reflexivity].
  - apply submitted_futures.
Qed.

(** C4 (counterexample): (1) called from code that runs on the loop, the
    wrapper made with [return_future = False] does not block and does not
    return the value 6: it returns the coroutine object itself and submits
    nothing; (2) when the coroutine raises a KeyboardInterrupt or SystemExit
    the caller is never given it and stays blocked however long it waits;
    (3) when the coroutine raises an [asyncio.CancelledError] the caller gets
    another exception object. *)
Lemma wrap_callable_blocking_call_fails :
  (exists coro,
     double_later ([VInt 3], []) nested_world = (Ok (VCoroutine coro), nested_world) /\
     coro 2 = CReturn (VInt 6) /\
     _wrap_callable 5 (MCallable double_later) false ([VInt 3], []) nested_world
       = (Ok (VCoroutine coro), nested_world) /\
     _wrap_callable 5 (MCallable double_later) false ([VInt 3], []) nested_world
       <> (Ok (VInt 6), submitted nested_world)) /\
  (forall ticks,
     _wrap_callable ticks (MCallable (raises_later (ExitException 1))) false ([], [])
       (__init__ None)
     = (Blocked, submitted (__init__ None))) /\
  (_wrap_callable 5 (MCallable (raises_later (AsyncioCancelledError 1))) false ([], [])
     (__init__ None)
   = (Raised FuturesCancelledError, submitted (__init__ None)) /\
   FuturesCancelledError <> AsyncioCancelledError 1).
Proof.
  split; [|split].
  - eexists. split; [reflexivity|]. split; [reflexivity|]. split; [reflexivity|].
    discriminate.
  - intros ticks.
    rewrite (_wrap_callable_blocking ticks (MCallable (raises_later (ExitException 1)))
               ([], []) (__init__ None) (__init__ None)
               (fun _ => CRaise (ExitException 1)) 0 eq_refl eq_refl)
      by (intros k Hk; lia).
    by destruct (decide (0 < ticks)).
  - split; [reflexivity|discriminate].
Qed.

Lemma wrap_callable_blocking_call_witness :
  _wrap_callable 5 (MCallable double_later) false ([VInt 3], []) (__init__ None)
    = (Ok (VInt 6), submitted (__init__ None)).
Proof.
  refine (proj1 (wrap_callable_blocking_call 5 (MCallable double_later) ([VInt 3], [])
            (__init__ None) (__init__ None) _ 2 eq_refl eq_refl _) (VInt 6) eq_refl _).
  - intros k Hk. destruct k as [|[|k]]; [reflexivity|reflexivity|lia].
  - lia.
Defined.

(** ** Stream bridge: the pump *)

Lemma pump_run_S coro n : pump_run coro (S n) = pump_step coro (pump_run coro n).
Proof. reflexivity. Qed.

Lemma pump_run_add coro d n :
  pump_run coro (d + n) = Nat.iter d (pump_step coro) (pump_run coro n).
Proof. unfold pump_run. apply Nat.iter_add. Qed.

(** The pump only ever appends to the queue. *)
Lemma pump_step_prefix coro s : q s `prefix_of` q (pump_step coro s).
Proof.
  unfold pump_step. destruct (pc s) as [n|exc| | |e]; simpl;
    try reflexivity; try (apply prefix_app_r; reflexivity).
  destruct (coro n) as [|v|e|]; simpl;
    try reflexivity; try (apply prefix_app_r; reflexivity).
  destruct (isinstance_Exception e); reflexivity.
Qed.

Lemma pump_run_mono coro n m :
  n <= m -> q (pump_run coro n) `prefix_of` q (pump_run coro m).
Proof.
  induction 1 as [|m _ IH]; [reflexivity|].
  rewrite pump_run_S. etrans; [exact IH|]. apply pump_step_prefix.
Qed.

(** A message that is in the queue stays at its position. *)
Lemma pump_run_lookup_mono coro n m i x :
  n <= m -> q (pump_run coro n) !! i = Some x -> q (pump_run coro m) !! i = Some x.
Proof.
  intros Hle Hx. eapply prefix_lookup_Some; [exact Hx|]. by apply pump_run_mono.
Qed.

(** While the generator is suspended the pump puts nothing. *)
Lemma pump_iter_waits coro s i d :
  pc s = PumpIter i ->
  (forall k, i <= k < i + d -> coro k = AWait) ->
  Nat.iter d (pump_step coro) s = {| pc := PumpIter (i + d); q := q s; stderr := stderr s |}.
Proof.
  intros Hpc. induction d as [|d IH]; intros Hw.
  - simpl. rewrite Nat.add_0_r, <- Hpc. by destruct s.
  - simpl. rewrite IH by (intros k Hk; apply Hw; lia).
    unfold pump_step. simpl. rewrite (Hw (i + d)) by lia.
    f_equal. f_equal. lia.
Qed.

Lemma pump_returned_stable coro s d :
  pc s = PumpReturned -> Nat.iter d (pump_step coro) s = s.
Proof.
  intros Hpc. induction d as [|d IH]; [reflexivity|].
  simpl. rewrite IH. unfold pump_step. by rewrite Hpc.
Qed.

Lemma pump_failed_stable coro s e d :
  pc s = PumpFailed e -> Nat.iter d (pump_step coro) s = s.
Proof.
  intros Hpc. induction d as [|d IH]; [reflexivity|].
  simpl. rewrite IH. unfold pump_step. by rewrite Hpc.
Qed.

(** Once the pump is in its except clause, two more steps put the exception
    and then the final ('val', None). *)
Lemma pump_except_two_puts coro n e :
  pc (pump_run coro n) = PumpExcept e ->
  pump_run coro (2 + n) =
    {| pc := PumpReturned;
       q := q (pump_run coro n) ++ [MsgExc e; MsgVal VNone];
       stderr := stderr (pump_run coro n) ++ [e] |}.
Proof.
  intros Hpc. change (2 + n) with (S (S n)). rewrite !pump_run_S.
  unfold pump_step at 2. rewrite Hpc.
  unfold pump_step. simpl. by rewrite <- app_assoc.
Qed.

Lemma pump_step_inv coro s : pump_inv s -> pump_inv (pump_step coro s).
Proof.
  intros [items Hinv]. unfold pump_inv, pump_step.
  destruct (pc s) as [n|exc| | |e] eqn:Hpc; simpl.
  - destruct (coro n) as [|v|e|]; simpl.
    + by exists items.
    + exists (items ++ [v]). by rewrite Hinv, fmap_app.
    + destruct (isinstance_Exception e); simpl; by exists items.
    + exists items. by left.
  - exists items. right. exists exc. by rewrite Hinv.
  - exists items. destruct Hinv as [Hq|[e Hq]]; rewrite Hq; [by left|right; by exists e].
  - exists items. by rewrite Hpc.
  - exists items. by rewrite Hpc.
Qed.

Lemma pump_run_inv coro n : pump_inv (pump_run coro n).
Proof.
  induction n as [|n IH]; [by exists []|].
  rewrite pump_run_S. by apply pump_step_inv.
Qed.

Lemma yielded_S (coro : asyncgen) (n : nat) :
  yielded coro (S n)
  = yielded coro n ++ (match coro n with AYield v => [v] | _ => [] end).
Proof.
  unfold yielded. rewrite seq_S, omap_app. simpl. by destruct (coro n).
Qed.

(** As long as the generator neither finishes nor raises, the pump is in its
    loop and the queue holds what was yielded. *)
Lemma pump_run_still_running (coro : asyncgen) (n : nat) :
  still_running coro n ->
  pump_run coro n = {| pc := PumpIter n; q := MsgGen <$> yielded coro n; stderr := [] |}.
Proof.
  induction n as [|n IH]; intros Hrun; [done|].
  rewrite pump_run_S, IH by (intros k Hk; apply Hrun; lia).
  unfold pump_step. simpl. rewrite yielded_S.
  destruct (Hrun n) as [Hco|[v Hco]]; [lia| |]; rewrite Hco.
  - by rewrite app_nil_r.
  - by rewrite fmap_app.
Qed.

(** What is in the queue once the generator has ended. *)
Lemma pump_run_stopped (coro : asyncgen) (k m : nat) :
  still_running coro k ->
  coro k = AStop ->
  k + 2 <= m ->
  pump_run coro m
  = {| pc := PumpReturned;
       q := (MsgGen <$> yielded coro k) ++ [MsgVal VNone];
       stderr := [] |}.
Proof.
  intros Hrun Hstop Hm. replace m with ((m - S (S k)) + S (S k)) by lia.
  rewrite pump_run_add, !pump_run_S, (pump_run_still_running coro k Hrun).
  unfold pump_step at 3. simpl. rewrite Hstop. unfold pump_step at 2. simpl.
  by rewrite pump_returned_stable.
Qed.

Lemma pump_run_failed (coro : asyncgen) (k m : nat) (e : exn) :
  still_running coro k ->
  coro k = ARaise e ->
  isinstance_Exception e = true ->
  k + 3 <= m ->
  pump_run coro m
  = {| pc := PumpReturned;
       q := (MsgGen <$> yielded coro k) ++ [MsgExc e; MsgVal VNone];
       stderr := [e] |}.
Proof.
  intros Hrun Hraise He Hm. replace m with ((m - S (S (S k))) + S (S (S k))) by lia.
  rewrite pump_run_add, !pump_run_S, (pump_run_still_running coro k Hrun).
  unfold pump_step at 4. simpl. rewrite Hraise, He.
  unfold pump_step at 3. simpl. unfold pump_step at 2. simpl.
  rewrite pump_returned_stable by done. by rewrite <- app_assoc.
Qed.

(** C1 (as amended): at every moment the queue holds the items yielded so
    far, followed by at most one ('exc', exc) and then at most one
    ('val', None): no item follows a terminal message, and the only message
    that can follow ('exc', exc) is the final ('val', None).  Once
    ('val', None) is in the queue nothing is ever put again.  When the
    generator raises an instance of [Exception] the queue ends up holding
    the items it yielded, then ('exc', exc), then ('val', None); when it
    finishes, the items it yielded and then ('val', None). *)
Theorem pump_queue_shape (coro : asyncgen) (n : nat) :
  (exists (items : list value) (tail : list msg),
     q (pump_run coro n) = ((MsgGen <$> items) ++ tail)%list /\
     (tail = [] \/ tail = [MsgVal VNone] \/
      exists e, tail = [MsgExc e] \/ tail = [MsgExc e; MsgVal VNone])) /\
  (forall res m,
     last (q (pump_run coro n)) = Some (MsgVal res) ->
     n <= m ->
     q (pump_run coro m) = q (pump_run coro n)) /\
  (forall e m,
     still_running coro n ->
     coro n = ARaise e ->
     isinstance_Exception e = true ->
     n + 3 <= m ->
     q (pump_run coro m) = (MsgGen <$> yielded coro n) ++ [MsgExc e; MsgVal VNone]) /\
  (forall m,
     still_running coro n ->
     coro n = AStop ->
     n + 2 <= m ->
     q (pump_run coro m) = (MsgGen <$> yielded coro n) ++ [MsgVal VNone]).
Proof.
  destruct (pump_run_inv coro n) as [items Hinv]. split; [|split; [|split]].
  - exists items. destruct (pc (pump_run coro n)).
    + exists []. rewrite app_nil_r. auto.
    + exists []. rewrite app_nil_r. auto.
    + destruct Hinv as [Hq|[e Hq]].
      * exists []. rewrite app_nil_r. auto.
      * exists [MsgExc e]. split; [done|]. right. right. exists e. by left.
    + destruct Hinv as [Hq|[e Hq]].
      * exists [MsgVal VNone]. auto.
      * exists [MsgExc e; MsgVal VNone]. rewrite Hq, <- app_assoc.
        split; [done|]. right. right. exists e. by right.
    + exists []. rewrite app_nil_r. auto.
  - intros res m Hlast Hle.
    assert (Hgen : forall l : list value, last (MsgGen <$> l) <> Some (MsgVal res)).
    { intros l. rewrite fmap_last. by destruct (last l). }
    destruct (pc (pump_run coro n)) eqn:Hpc.
    + rewrite Hinv in Hlast. by apply Hgen in Hlast.
    + rewrite Hinv in Hlast. by apply Hgen in Hlast.
    + destruct Hinv as [Hq|[e Hq]]; rewrite Hq in Hlast.
      * by apply Hgen in Hlast.
      * rewrite last_snoc in Hlast. discriminate.
    + replace m with ((m - n) + n) by lia.
      rewrite pump_run_add. by rewrite pump_returned_stable.
    + rewrite Hinv in Hlast. by apply Hgen in Hlast.
  - intros e m Hrun Hraise He Hm.
    by rewrite (pump_run_failed coro n m e Hrun Hraise He Hm).
  - intros m Hrun Hstop Hm.
    by rewrite (pump_run_stopped coro n m Hrun Hstop Hm).
Qed.

Lemma pump_queue_shape_witness :
  q (pump_run (one_then (UserException 7)) 4)
  = (MsgGen <$> yielded (one_then (UserException 7)) 1)
      ++ [MsgExc (UserException 7); MsgVal VNone].
Proof.
  refine (proj1 (proj2 (proj2 (pump_queue_shape (one_then (UserException 7)) 1)))
            (UserException 7) 4 _ eq_refl eq_refl _).
  - intros k Hk. destruct k as [|k]; simpl; eauto. lia.
  - lia.
Defined.

(** C1 (counterexample): for a generator that raises an instance of
    [Exception], the pump puts [('exc', exc)] and then also [('val', None)]:
    the queue carries two terminal messages and the error message is not the
    last one. *)
Lemma pump_puts_val_after_exc :
  pump_run fails_at_once 3 =
    {| pc := PumpReturned;
       q := [MsgExc (UserException 0); MsgVal VNone];
       stderr := [UserException 0] |} /\
  length (filter (fun m => is_terminal m = true) (q (pump_run fails_at_once 3))) = 2 /\
  q (pump_run fails_at_once 2) = [MsgExc (UserException 0)] /\
  last (q (pump_run fails_at_once 3)) <> Some (MsgExc (UserException 0)).
Proof.
  split; [reflexivity|]. split; [reflexivity|]. split; [reflexivity|]. discriminate.
Qed.

(** ** Stream bridge: the consumer *)

Lemma pump_run_yielded coro i j v E :
  yields_then_raises coro i j v E ->
  pump_run coro (S i) = {| pc := PumpIter (S i); q := [MsgGen v]; stderr := [] |}.
Proof.
  intros (Hij & Hi & Hj & Hw). rewrite pump_run_S. unfold pump_run.
  rewrite (pump_iter_waits coro pump_init 0 i eq_refl)
    by (intros k Hk; apply Hw; lia).
  unfold pump_step. simpl. by rewrite Hi.
Qed.

Lemma pump_run_before_raise coro i j v E :
  yields_then_raises coro i j v E ->
  pump_run coro j = {| pc := PumpIter j; q := [MsgGen v]; stderr := [] |}.
Proof.
  intros H. pose proof H as (Hij & Hi & Hj & Hw).
  replace j with ((j - S i) + S i) at 1 by lia.
  rewrite pump_run_add, (pump_run_yielded coro i j v E H).
  rewrite (pump_iter_waits coro (mkPump (PumpIter (S i)) [MsgGen v] []) (S i) (j - S i) eq_refl)
    by (intros k Hk; apply Hw; lia).
  simpl. do 2 f_equal. lia.
Qed.

Lemma pump_run_raised coro i j v E :
  yields_then_raises coro i j v E ->
  pump_run coro (S j) =
    {| pc := if isinstance_Exception E then PumpExcept E else PumpFailed E;
       q := [MsgGen v]; stderr := [] |}.
Proof.
  intros H. rewrite pump_run_S, (pump_run_before_raise coro i j v E H).
  destruct H as (_ & _ & Hj & _). unfold pump_step. simpl. rewrite Hj.
  by destruct (isinstance_Exception E).
Qed.

Lemma gen_next_created ticks coro w :
  gen_next ticks (GenCreated coro) w = (Ok (gen_loop ticks coro 0), pump_started w).
Proof.
  unfold gen_next, pump_started, _get_loop, Queue, run_coroutine_threadsafe, get, put.
  unfold mbind, M_bind, mret, M_ret.
  destruct (_loop w); reflexivity.
Qed.

(** C6 (as amended): outside a running event loop, for a target whose
    asynchronous generator yields [v] and then raises an instance [E] of
    [Exception], the wrapper returns a generator object whose first [next]
    yields [v], whose second [next] raises [E] itself, and which is finished
    afterwards: every later [next] raises StopIteration. *)
Theorem wrap_generator_yield_then_raise ticks (g : member) args w w1 coro i j v E :
  call g args w = (Ok (VAsyncGen coro), w1) ->
  running_loop w1 = None ->
  yields_then_raises coro i j v E ->
  isinstance_Exception E = true ->
  j + 2 <= ticks ->
  _wrap_callable ticks g true args w = (Ok (VGenerator coro), w1) /\
  gen_next ticks (GenCreated coro) w1
    = (Ok (NextYield v, GenStarted coro 1), pump_started w1) /\
  gen_next ticks (GenStarted coro 1) (pump_started w1)
    = (Ok (NextRaise E, GenFinished), pump_started w1) /\
  forall w', gen_next ticks GenFinished w' = (Ok (NextStop VNone, GenFinished), w').
Proof.
  intros Hg Hctx H HE Hticks. pose proof H as (Hij & _).
  assert (H0 : q (pump_run coro ticks) !! 0 = Some (MsgGen v)).
  { apply (pump_run_lookup_mono coro (S i)); [lia|].
    by rewrite (pump_run_yielded coro i j v E H). }
  assert (H1 : q (pump_run coro ticks) !! 1 = Some (MsgExc E)).
  { apply (pump_run_lookup_mono coro (S (S j))); [lia|].
    rewrite pump_run_S, (pump_run_raised coro i j v E H), HE. reflexivity. }
  split; [|split; [|split]].
  - rewrite (_wrap_callable_after_target ticks g true args w _ w1 Hg).
    by rewrite Hctx.
  - rewrite gen_next_created. unfold gen_loop. by rewrite H0.
  - simpl. unfold mret, M_ret, gen_loop. by rewrite H1.
  - reflexivity.
Qed.

Lemma wrap_generator_yield_then_raise_witness :
  exists coro,
    _wrap_callable 3 (MCallable (one_then_raise (UserException 7))) true ([], []) (__init__ None)
      = (Ok (VGenerator coro), __init__ None) /\
    gen_next 3 (GenCreated coro) (__init__ None)
      = (Ok (NextYield (VInt 1), GenStarted coro 1), pump_started (__init__ None)) /\
    gen_next 3 (GenStarted coro 1) (pump_started (__init__ None))
      = (Ok (NextRaise (UserException 7), GenFinished), pump_started (__init__ None)) /\
    forall w', gen_next 3 GenFinished w' = (Ok (NextStop VNone, GenFinished), w').
Proof.
  eexists.
  refine (wrap_generator_yield_then_raise 3 (MCallable (one_then_raise (UserException 7)))
            ([], []) (__init__ None) (__init__ None) _ 0 1 (VInt 1) (UserException 7)
            eq_refl eq_refl _ eq_refl _).
  - split; [lia|]. split; [reflexivity|]. split; [reflexivity|].
    intros k Hk Hne. lia.
  - lia.
Defined.

(** When the generator raises something that is not an instance of
    [Exception], the pump does not catch it and puts nothing more: the
    consumer waits for a second message that never comes. *)
Lemma gen_next_base_exception_blocks ticks coro i j v E w :
  yields_then_raises coro i j v E ->
  isinstance_Exception E = false ->
  gen_next ticks (GenStarted coro 1) w = (Ok (NextBlocked, GenStarted coro 1), w).
Proof.
  intros H HE.
  assert (Hq : q (pump_run coro ticks) `prefix_of` [MsgGen v]).
  { destruct (decide (ticks <= S j)) as [Hle|Hgt].
    - replace [MsgGen v] with (q (pump_run coro (S j)))
        by (by rewrite (pump_run_raised coro i j v E H)).
      by apply pump_run_mono.
    - replace ticks with ((ticks - S j) + S j) by lia.
      rewrite pump_run_add.
      rewrite (pump_failed_stable coro _ E)
        by (rewrite (pump_run_raised coro i j v E H), HE; reflexivity).
      by rewrite (pump_run_raised coro i j v E H). }
  simpl. unfold mret, M_ret, gen_loop.
  assert (Hlen : q (pump_run coro ticks) !! 1 = None).
  { apply lookup_ge_None. apply prefix_length in Hq. simpl in Hq. lia. }
  by rewrite Hlen.
Qed.

(** C6 (counterexample): (1) when the error is a [BaseException] that is not
    an [Exception], the second [next] does not raise it however long the
    consumer waits; (2) called from code that runs on a loop, the wrapper
    returns the asynchronous generator itself, not a generator object. *)
Lemma wrap_generator_yield_then_raise_fails :
  (exists coro,
     one_then_raise (UserBaseException 7) ([], []) (__init__ None)
       = (Ok (VAsyncGen coro), __init__ None) /\
     forall ticks,
       gen_next ticks (GenStarted coro 1) (pump_started (__init__ None))
         = (Ok (NextBlocked, GenStarted coro 1), pump_started (__init__ None))) /\
  (exists coro,
     one_then_raise (UserException 7) ([], []) nested_world
       = (Ok (VAsyncGen coro), nested_world) /\
     _wrap_callable 3 (MCallable (one_then_raise (UserException 7))) true ([], []) nested_world
       = (Ok (VAsyncGen coro), nested_world)).
Proof.
  split.
  - eexists. split; [reflexivity|]. intros ticks.
    apply (gen_next_base_exception_blocks ticks _ 0 1 (VInt 1) (UserBaseException 7));
      [|reflexivity].
    split; [lia|]. split; [reflexivity|]. split; [reflexivity|].
    intros k Hk Hne. lia.
  - eexists. split; reflexivity.
Qed.

(** ** Type adapter *)

Lemma dict_get_set {A} (k k' : string) (v : A) (d : list (string * A)) :
  dict_get k (dict_set k' v d) = if decide (k = k') then Some v else dict_get k d.
Proof.
  induction d as [|[k0 v0] d IH]; simpl.
  - repeat case_decide; congruence.
  - destruct (decide (k' = k0)) as [->|Hne]; simpl.
    + repeat case_decide; congruence.
    + rewrite IH. repeat case_decide; congruence.
Qed.

Lemma dict_get_None {A} (k : string) (d : list (string * A)) :
  dict_get k d = None <-> k ∉ d.*1.
Proof.
  induction d as [|[k0 v0] d IH]; simpl.
  - split; [intros _; apply not_elem_of_nil|done].
  - rewrite not_elem_of_cons, <- IH. case_decide as E.
    + split; [discriminate|]. intros [Hne _]. by destruct Hne.
    + tauto.
Qed.

Lemma _wrap_class_body_set ticks d k v :
  _wrap_class_body ticks d (k, v) = dict_set (facade_key k) (facade_value ticks k v) d.
Proof.
  unfold _wrap_class_body, facade_key, facade_value.
  repeat case_decide; try reflexivity; try tauto; try (exfalso; tauto).
  by destruct (member_callable v).
Qed.

(** Items stored under other names leave a name as it was. *)
Lemma _wrap_class_loop_other ticks l : forall d k',
  (forall k0, k0 ∈ l.*1 -> facade_key k0 <> k') ->
  dict_get k' (foldl (_wrap_class_body ticks) d l) = dict_get k' d.
Proof.
  induction l as [|[k0 v0] l IH]; intros d k' Hk; [reflexivity|].
  cbn [foldl]. rewrite IH.
  - rewrite _wrap_class_body_set, dict_get_set.
    case_decide as E; [|reflexivity].
    exfalso. apply (Hk k0); [left|done].
  - intros k1 Hk1. apply Hk. by right.
Qed.


(** The names of the facade are the stored names of the own members. *)
Lemma _wrap_class_loop_keys ticks l : forall d k',
  is_Some (dict_get k' (foldl (_wrap_class_body ticks) d l)) <->
  is_Some (dict_get k' d) \/ exists k0, k0 ∈ l.*1 /\ facade_key k0 = k'.
Proof.
  induction l as [|[k0 v0] l IH]; intros d k'; cbn [foldl fmap list_fmap fst].
  - split; [by left|]. intros [H|(k0 & H & _)]; [done|]. by apply elem_of_nil in H.
  - rewrite IH, _wrap_class_body_set, dict_get_set. split.
    + intros [H|(k1 & H1 & H2)].
      * case_decide as E; [|by left]. right. exists k0. split; [left|done].
      * right. exists k1. split; [by right|done].
    + intros [H|(k1 & H1 & H2)].
      * left. case_decide; [by eexists|done].
      * apply elem_of_cons in H1 as [->|H1].
        -- left. rewrite decide_True by done. by eexists.
        -- right. by exists k1.
Qed.

Lemma facade_key_ordinary k :
  k <> "__aenter__" -> k <> "__aexit__" -> facade_key k = k.
Proof. intros H1 H2. unfold facade_key. by rewrite !decide_False. Qed.


Lemma facade_key_slots k : facade_key k = "__slots__" <-> k = "__slots__".
Proof. unfold facade_key. repeat case_decide; split; intros; subst; done. Qed.

(** The last member stored under a name is the one the loop leaves there. *)
Lemma _wrap_class_loop_last ticks l1 k m l2 d :
  (forall k0, k0 ∈ l2.*1 -> facade_key k0 <> facade_key k) ->
  dict_get (facade_key k) (foldl (_wrap_class_body ticks) d (l1 ++ (k, m) :: l2))
  = Some (facade_value ticks k m).
Proof.
  intros Hlater. rewrite foldl_app. cbn [foldl].
  rewrite _wrap_class_loop_other by done.
  rewrite _wrap_class_body_set, dict_get_set. by rewrite decide_True.
Qed.

(** *** What [type] makes of the namespace *)

Lemma dict_get_app {A} (k : string) (d1 d2 : list (string * A)) :
  dict_get k (d1 ++ d2)
  = match dict_get k d1 with Some v => Some v | None => dict_get k d2 end.
Proof.
  induction d1 as [|[k0 v0] d1 IH]; [done|]. simpl. by case_decide.
Qed.

Lemma dict_get_setdefault {A} (k k0 : string) (v : A) (d : list (string * A)) :
  dict_get k (dict_setdefault k0 v d)
  = match dict_get k d with
    | Some x => Some x
    | None => if decide (k = k0) then Some v else None
    end.
Proof.
  unfold dict_setdefault. destruct (dict_get k0 d) as [x0|] eqn:E0.
  - destruct (dict_get k d) as [x|] eqn:E; [done|].
    case_decide as Hk; [|done]. subst. congruence.
  - rewrite dict_get_app. destruct (dict_get k d); [done|]. simpl. by case_decide.
Qed.

Lemma dict_get_defaults {A} (k : string) (defaults : list (string * A)) : forall d,
  dict_get k (foldl (fun d '(k, m) => dict_setdefault k m d) d defaults)
  = match dict_get k d with Some x => Some x | None => dict_get k defaults end.
Proof.
  induction defaults as [|[k0 v0] defaults IH]; intros d; cbn [foldl].
  - by destruct (dict_get k d).
  - rewrite IH, dict_get_setdefault. simpl.
    destruct (dict_get k d); [done|]. by case_decide.
Qed.

Lemma dict_get_convert (k : string) (d : list (string * member)) :
  dict_get k ((fun '(k, m) => (k, type_convert k m)) <$> d)
  = type_convert k <$> dict_get k d.
Proof.
  induction d as [|[k0 m0] d IH]; [done|]. simpl.
  case_decide as Hk; [by subst|done].
Qed.

Lemma dict_get_kept (k : string) (d : list (string * member)) :
  dict_get k (filter (fun km => ~ type_consumes km.1) d)
  = if decide (type_consumes k) then None else dict_get k d.
Proof.
  induction d as [|[k0 m0] d IH]; [by case_decide|].
  rewrite filter_cons. cbn [fst]. destruct (decide (~ type_consumes k0)) as [Hk0|Hk0].
  - cbn [dict_get]. rewrite IH. destruct (decide (k = k0)) as [->|Hne]; [|done].
    by rewrite decide_False.
  - rewrite IH. cbn [dict_get]. destruct (decide (k = k0)) as [->|Hne]; [|done].
    by destruct (decide (type_consumes k0)).
Qed.


Lemma getattr_no_bases name d k : getattr (PyClass name [] d) k = dict_get k d.
Proof. simpl. by destruct (dict_get k d). Qed.

(** The facade, when [type] makes one: its name, its bases, and every
    attribute as the wrapped namespace or the defaults of [type] give it. *)
Lemma _wrap_class_facade ticks T w facade w' :
  _wrap_class ticks T w = (Ok facade, w') ->
  w' = w /\
  cls_name facade = (cls_name T ++ "Synchronized")%string /\
  cls_bases facade = [] /\
  (forall k f,
     dict_get k (foldl (_wrap_class_body ticks) [] (cls_dict T)) = Some (MCallable f) ->
     ~ type_consumes k) /\
  exists slots,
    (dict_get "__slots__" (foldl (_wrap_class_body ticks) [] (cls_dict T)) = None ->
     slots = None) /\
    forall k,
      getattr facade k
      = match (if decide (type_consumes k) then None
               else dict_get k (foldl (_wrap_class_body ticks) [] (cls_dict T))) with
        | Some m => Some (type_convert k m)
        | None => dict_get k (type_defaults (cls_name T ++ "Synchronized")%string slots)
        end.
Proof.
  rewrite _wrap_class_type. intros H.
  destruct (type__cases (cls_name T ++ "Synchronized")%string
              (foldl (_wrap_class_body ticks) [] (cls_dict T)) w)
    as [(e & _ & E)|(slots & E & Hslots & Hq & Hc)]; rewrite E in H; [discriminate|].
  assert (Hw : w' = w) by congruence.
  assert (Hfacade : facade
          = PyClass (cls_name T ++ "Synchronized")%string []
              (foldl (fun d '(k, m) => dict_setdefault k m d)
                 ((fun '(k, m) => (k, type_convert k m))
                    <$> filter (fun km => ~ type_consumes km.1)
                          (foldl (_wrap_class_body ticks) [] (cls_dict T)))
                 (type_defaults (cls_name T ++ "Synchronized")%string slots)))
    by congruence.
  clear H E. split; [done|]. rewrite Hfacade. split; [done|]. split; [done|]. split.
  { intros k f Hk [->| ->].
    - destruct (Hq _ Hk) as [s Hs]. discriminate.
    - specialize (Hc _ Hk). discriminate. }
  exists slots. split; [done|]. intros k.
  rewrite getattr_no_bases.
  generalize (type_defaults (cls_name T ++ "Synchronized")%string slots).
  intros defaults. rewrite dict_get_defaults, dict_get_convert, dict_get_kept.
  by destruct (if decide (type_consumes k) then None else dict_get k _).
Qed.

(** A name that only a member of that very name is stored under, and that
    the class does not define, is not in the wrapped namespace. *)
Lemma _wrap_class_absent ticks T k :
  (forall k0, facade_key k0 = k -> k0 = k) ->
  k ∉ (cls_dict T).*1 ->
  dict_get k (foldl (_wrap_class_body ticks) [] (cls_dict T)) = None.
Proof.
  intros Hkey Hno. destruct (dict_get k _) as [m|] eqn:E; [|done].
  assert (Hs : is_Some (dict_get k (foldl (_wrap_class_body ticks) [] (cls_dict T))))
    by (by rewrite E).
  apply _wrap_class_loop_keys in Hs as [[? Hs]|(k0 & Hin & Hk0)]; [discriminate|].
  apply Hkey in Hk0 as ->. done.
Qed.

Lemma _wrap_class_no_slots ticks T :
  "__slots__" ∉ (cls_dict T).*1 ->
  dict_get "__slots__" (foldl (_wrap_class_body ticks) [] (cls_dict T)) = None.
Proof.
  apply _wrap_class_absent. intros k0. unfold facade_key.
  repeat case_decide; intros; subst; done.
Qed.





(** With [return_future = True] the same call returns at once, with the
    future of the submitted coroutine. *)
Lemma _wrap_callable_handle ticks (f : member) args w w1 (coro : coroutine) :
  call f args w = (Ok (VCoroutine coro), w1) ->
  running_loop w1 = None ->
  _wrap_callable ticks f true args w
  = (Ok (VFuture (default (BridgeLoop (loops_created w1)) (_loop w1)) coro), submitted w1).
Proof.
  intros Hf Hctx.
  rewrite (_wrap_callable_after_target ticks f true args w _ w1 Hf).
  rewrite Hctx. simpl. by rewrite _make_sync_function_eval.
Qed.

(** C8 (as amended): whenever the facade is built, for an own [__aenter__]
    (or [__aexit__]) that no later own member named [__aenter__] or
    [__enter__] (or [__aexit__] or [__exit__]) follows, the facade stores
    under [__enter__] (or [__exit__]) the adapter of that method made with
    [return_future = False]; called outside a running event loop on a method
    that returns a coroutine, it blocks until the coroutine finishes and
    returns its value, or raises its exception when the future hands it over
    as it is; every other own callable member that is the last one stored
    under its name gets [return_future = True]. *)
Theorem wrap_class_scoped_resource ticks (T : pyclass) (ka ks : string) :
  (ka = "__aenter__" /\ ks = "__enter__") \/ (ka = "__aexit__" /\ ks = "__exit__") ->
  (forall w facade w' l1 v l2,
     _wrap_class ticks T w = (Ok facade, w') ->
     cls_dict T = l1 ++ (ka, v) :: l2 ->
     ka ∉ l2.*1 -> ks ∉ l2.*1 ->
     getattr facade ks = Some (MCallable (_wrap_callable ticks v false))) /\
  (forall (v : member) args w w1 (coro : coroutine) n,
     call v args w = (Ok (VCoroutine coro), w1) ->
     running_loop w1 = None ->
     (forall k, k < n -> coro k = CWait) ->
     n < ticks ->
     (forall r, coro n = CReturn r ->
        _wrap_callable ticks v false args w = (Ok r, submitted w1)) /\
     (forall e, coro n = CRaise e -> handed_over e = true ->
        _wrap_callable ticks v false args w = (Raised e, submitted w1))) /\
  (forall w facade w' l1 k m l2,
     _wrap_class ticks T w = (Ok facade, w') ->
     cls_dict T = l1 ++ (k, m) :: l2 ->
     k <> "__aenter__" -> k <> "__aexit__" ->
     (forall k0, k0 ∈ l2.*1 -> facade_key k0 <> k) ->
     member_callable m = true ->
     getattr facade k = Some (type_convert k (MCallable (_wrap_callable ticks m true)))).
Proof.
  intros Hk. split; [|split].
  - intros w facade w' l1 v l2 H Hdict Hka Hks.
    destruct (_wrap_class_facade ticks T w facade w' H)
      as (_ & _ & _ & _ & slots & _ & Hget).
    assert (Hkey : facade_key ka = ks) by (by destruct Hk as [[-> ->]|[-> ->]]).
    rewrite <- Hkey, Hget, Hdict.
    rewrite decide_False
      by (rewrite Hkey; intros [?|?]; destruct Hk as [[_ ->]|[_ ->]]; discriminate).
    rewrite (_wrap_class_loop_last ticks l1 ka v l2 []).
    + unfold facade_value. rewrite decide_True by (destruct Hk; tauto).
      rewrite Hkey. by destruct Hk as [[_ ->]|[_ ->]].
    + intros k0 Hin Heq. rewrite Hkey in Heq.
      unfold facade_key in Heq.
      repeat case_decide; destruct Hk as [[-> ->]|[-> ->]]; subst; done.
  - intros v args w w1 coro n Hf Hctx Hw Hlt.
    rewrite (_wrap_callable_blocking ticks v args w w1 coro n Hf Hctx Hw).
    rewrite decide_True by done.
    split; [intros r Hr|intros e He Hh]; rewrite ?Hr, ?He; [done|].
    destruct e as [| | | | |c ?| | | | | | | | |]; try done. by destruct c.
  - intros w facade w' l1 k m l2 H Hdict H1 H2 Hlater Hcall.
    destruct (_wrap_class_facade ticks T w facade w' H)
      as (_ & _ & _ & Hkept & slots & _ & Hget).
    assert (Hstored : dict_get k (foldl (_wrap_class_body ticks) [] (cls_dict T))
                      = Some (MCallable (_wrap_callable ticks m true))).
    { rewrite Hdict. rewrite <- (facade_key_ordinary k H1 H2) at 1.
      rewrite (_wrap_class_loop_last ticks l1 k m l2 [])
        by (by rewrite (facade_key_ordinary k H1 H2)).
      unfold facade_value. rewrite decide_False by tauto. by rewrite Hcall. }
    rewrite Hget, decide_False by (by apply (Hkept k _ Hstored)).
    by rewrite Hstored.
Qed.

Lemma wrap_class_scoped_resource_witness :
  exists facade,
    _wrap_class 5 Resource (__init__ None) = (Ok facade, __init__ None) /\
    getattr facade "__enter__"
    = Some (MCallable (_wrap_callable 5 (MCallable double_later) false)).
Proof.
  eexists. split; [reflexivity|].
  refine (proj1 (wrap_class_scoped_resource 5 Resource "__aenter__" "__enter__"
                   (or_introl (conj eq_refl eq_refl)))
            (__init__ None) _ (__init__ None) (take 1 (cls_dict Resource))
            (MCallable double_later) (drop 2 (cls_dict Resource)) eq_refl eq_refl _ _).
  - by apply (bool_decide_unpack _).
  - by apply (bool_decide_unpack _).
Defined.

(** C8 (counterexample): (1) called from code that runs on the loop, the
    facade's [__enter__] returns the coroutine object, not a resolved value;
    (2) for a class that inherits [__aenter__], the facade has no
    [__enter__]; (3) an own [__enter__] defined after [__aenter__] replaces
    the wrapped [__aenter__]; (4) for an entry method whose coroutine raises
    a KeyboardInterrupt or SystemExit, the adapter made with
    [return_future = False] neither returns nor raises: the caller stays
    blocked however long it waits. *)
Lemma wrap_class_scoped_resource_fails :
  (exists facade f coro,
     _wrap_class 5 Resource (__init__ None) = (Ok facade, __init__ None) /\
     getattr facade "__enter__" = Some (MCallable f) /\
     f ([VInt 3], []) nested_world = (Ok (VCoroutine coro), nested_world) /\
     coro 2 = CReturn (VInt 6)) /\
  (getattr SubResource "__aenter__" = Some (MCallable double_later) /\
   exists facade,
     _wrap_class 5 SubResource (__init__ None) = (Ok facade, __init__ None) /\
     getattr facade "__enter__" = None) /\
  (getattr Both "__aenter__" = Some (MCallable double_later) /\
   exists facade,
     _wrap_class 5 Both (__init__ None) = (Ok facade, __init__ None) /\
     getattr facade "__enter__" = Some (MData (VInt 0))) /\
  (forall ticks,
     _wrap_callable ticks (MCallable (raises_later (ExitException 1))) false ([], [])
       (__init__ None)
     = (Blocked, submitted (__init__ None))).
Proof.
  split; [|split; [|split]].
  - eexists _, _, _. split; [reflexivity|]. split; [reflexivity|]. split; reflexivity.
  - split; [reflexivity|]. eexists. split; reflexivity.
  - split; [reflexivity|]. eexists. split; reflexivity.
  - intros ticks.
    rewrite (_wrap_callable_blocking ticks (MCallable (raises_later (ExitException 1)))
               ([], []) (__init__ None) (__init__ None)
               (fun _ => CRaise (ExitException 1)) 0 eq_refl eq_refl)
      by (intros k Hk; lia).
    by destruct (decide (0 < ticks)).
Qed.

(** ** Scheduler host under concurrent calls *)










(** A call that runs alone does what the sequential [_get_loop] does. *)
Lemma alone_get_loop (w : World) :
  exists l,
    _get_loop w = (Ok l, Race.world (Race.run (Race.alone 0) (Race.init 1 w))) /\
    Race.returned (Race.run (Race.alone 0) (Race.init 1 w)) = [Some l].
Proof.
  destruct w as [lp th ts lc rl fc qc]. destruct lp as [l|].
  - exists l. split; reflexivity.
  - exists (BridgeLoop lc). split; reflexivity.
Qed.




(** * Further properties of the code *)

(** ** Scheduler host, one caller at a time *)

(** X1: [_get_loop] always returns a loop and stores it in [self._loop]; a
    second call returns the same loop and changes nothing.  A thread and a
    loop are created only when no loop was stored, and then exactly one of
    each. *)
Theorem get_loop_idempotent (w : World) :
  exists l w1,
    _get_loop w = (Ok l, w1) /\
    _loop w1 = Some l /\
    _get_loop w1 = (Ok l, w1) /\
    (is_Some (_loop w) -> w1 = w) /\
    (_loop w = None ->
     threads_started w1 = S (threads_started w) /\
     loops_created w1 = S (loops_created w) /\
     l = BridgeLoop (loops_created w)).
Proof.
  destruct w as [lp th ts lc rl fc qc]. destruct lp as [l|].
  - exists l. eexists. split; [reflexivity|].
    split; [reflexivity|]. split; [reflexivity|].
    split; [intros _; reflexivity|discriminate].
  - exists (BridgeLoop lc), (mkWorld (Some (BridgeLoop lc)) (Some ts) (S ts) (S lc) rl fc qc).
    split; [reflexivity|].
    split; [reflexivity|]. split; [reflexivity|].
    split; [intros [? ?]; discriminate|intros _; repeat split].
Qed.

(** ** Call bridge *)

Lemma submitted_loop (w : World) :
  _loop (submitted w) = Some (default (BridgeLoop (loops_created w)) (_loop w)).
Proof.
  unfold submitted, _get_loop, run_coroutine_threadsafe, get, put.
  unfold mbind, M_bind, mret, M_ret.
  destruct (_loop w) eqn:E; simpl; by rewrite ?E.
Qed.

(** X2: outside a running event loop, the wrapper made with
    [return_future = True] returns at once, whether or not the coroutine ever
    finishes, with the future of the coroutine on the instance's loop; the
    wrapper made with [return_future = False] returns exactly what
    [fut.result()] on that future gives, in the same world. *)
Theorem handle_then_result ticks (f : member) args w w1 (coro : coroutine) :
  call f args w = (Ok (VCoroutine coro), w1) ->
  running_loop w1 = None ->
  exists l,
    _wrap_callable ticks f true args w = (Ok (VFuture l coro), submitted w1) /\
    _loop (submitted w1) = Some l /\
    _wrap_callable ticks f false args w
      = (fst (Future_result ticks coro (submitted w1)), submitted w1).
Proof.
  intros Hf Hctx. eexists. split; [|split].
  - by apply _wrap_callable_handle.
  - apply submitted_loop.
  - rewrite (_wrap_callable_after_target ticks f false args w _ w1 Hf).
    rewrite Hctx. simpl. by rewrite _make_sync_function_eval.
Qed.

Lemma handle_then_result_witness :
  exists l coro,
    _wrap_callable 1 (MCallable never_returns) true ([], []) (__init__ None)
      = (Ok (VFuture l coro), submitted (__init__ None)) /\
    _loop (submitted (__init__ None)) = Some l /\
    _wrap_callable 1 (MCallable never_returns) false ([], []) (__init__ None)
      = (fst (Future_result 1 coro (submitted (__init__ None))), submitted (__init__ None)).
Proof.
  destruct (handle_then_result 1 (MCallable never_returns) ([], []) (__init__ None)
              (__init__ None) (fun _ => CWait) eq_refl eq_refl) as [l H].
  exists l, (fun _ => CWait). exact H.
Defined.

(** X3: there is no timeout.  Outside a running event loop, the wrapper made
    with [return_future = False] for a coroutine that never finishes keeps
    the caller blocked however long the loop runs. *)
Theorem blocking_call_never_times_out ticks (f : member) args w w1 (coro : coroutine) :
  call f args w = (Ok (VCoroutine coro), w1) ->
  running_loop w1 = None ->
  (forall k, coro k = CWait) ->
  _wrap_callable ticks f false args w = (Blocked, submitted w1).
Proof.
  intros Hf Hctx Hw.
  rewrite (_wrap_callable_after_target ticks f false args w _ w1 Hf).
  rewrite Hctx. simpl. rewrite _make_sync_function_eval.
  by rewrite await_result_blocked.
Qed.

Lemma blocking_call_never_times_out_witness :
  _wrap_callable 1000 (MCallable never_returns) false ([], []) (__init__ None)
    = (Blocked, submitted (__init__ None)).
Proof.
  exact (blocking_call_never_times_out 1000 (MCallable never_returns) ([], [])
           (__init__ None) (__init__ None) (fun _ => CWait) eq_refl eq_refl
           (fun _ => eq_refl)).
Defined.

(** ** Callable adapter *)

(** X4: called from code that runs inside an event loop, the wrapper hands
    back whatever the target returned, coroutine and asynchronous generator
    included, for either value of [return_future]; it does not block and
    leaves the world as the target left it: no thread, no submission, no
    queue. *)
Theorem wrap_callable_async_context ticks (f : member) return_future args w res w1 l :
  call f args w = (Ok res, w1) ->
  running_loop w1 = Some l ->
  _wrap_callable ticks f return_future args w = (Ok res, w1).
Proof.
  intros Hf Hctx.
  rewrite (_wrap_callable_after_target ticks f return_future args w res w1 Hf).
  by rewrite Hctx.
Qed.

Lemma wrap_callable_async_context_witness :
  _wrap_callable 5 (MCallable never_returns) false ([], []) nested_world
    = (Ok (VCoroutine (fun _ => CWait)), nested_world).
Proof.
  exact (wrap_callable_async_context 5 (MCallable never_returns) false ([], [])
           nested_world _ nested_world (BridgeLoop 0) eq_refl eq_refl).
Defined.

(** X5: [return_future] matters for coroutines only.  When the target does
    not return a coroutine (it returns a plain value or an asynchronous
    generator, raises, or blocks), both wrappers behave the same. *)
Theorem return_future_only_for_coroutines ticks (f : member) args w :
  (forall res w1, call f args w = (Ok res, w1) -> iscoroutine res = false) ->
  _wrap_callable ticks f true args w = _wrap_callable ticks f false args w.
Proof.
  intros Hres. destruct (call f args w) as [[res|e|] w1] eqn:Hf.
  - rewrite !(_wrap_callable_after_target ticks f _ args w res w1 Hf).
    specialize (Hres res w1 eq_refl).
    destruct (bool_decide _); [done|]. destruct res; try done.
  - unfold _wrap_callable. unfold mbind at 1 3, M_bind at 1 3. by rewrite Hf.
  - unfold _wrap_callable. unfold mbind at 1 3, M_bind at 1 3. by rewrite Hf.
Qed.

Lemma return_future_only_for_coroutines_witness :
  _wrap_callable 5 (MCallable (one_then_raise (UserException 7))) true ([], []) (__init__ None)
  = _wrap_callable 5 (MCallable (one_then_raise (UserException 7))) false ([], []) (__init__ None).
Proof.
  apply (return_future_only_for_coroutines 5 (MCallable (one_then_raise (UserException 7)))).
  intros res w1 H. injection H as <- _. reflexivity.
Defined.

(** ** Type adapter *)

Lemma dict_set_keys {A} (k : string) (v : A) (d : list (string * A)) :
  (dict_set k v d).*1 = if decide (k ∈ d.*1) then d.*1 else d.*1 ++ [k].
Proof.
  induction d as [|[k0 v0] d IH].
  - destruct (decide (k ∈ ([] : list (string * A)).*1)) as [Hin|_]; [|done].
    by apply elem_of_nil in Hin.
  - cbn [dict_set]. destruct (decide (k = k0)) as [->|Hne].
    + destruct (decide (k0 ∈ ((k0, v0) :: d).*1)) as [_|Hnin]; [done|].
      exfalso. apply Hnin. left.
    + change (((k0, v0) :: dict_set k v d).*1) with (k0 :: (dict_set k v d).*1).
      rewrite IH. change (((k0, v0) :: d).*1) with (k0 :: d.*1).
      destruct (decide (k ∈ d.*1)) as [Hin|Hnin];
        destruct (decide (k ∈ k0 :: d.*1)) as [Hin'|Hnin']; try done.
      * exfalso. apply Hnin'. by right.
      * exfalso. apply elem_of_cons in Hin' as [?|?]; done.
Qed.

Lemma dict_set_NoDup {A} (k : string) (v : A) (d : list (string * A)) :
  NoDup d.*1 -> NoDup (dict_set k v d).*1.
Proof.
  intros Hnd. rewrite dict_set_keys. case_decide as Hin; [done|].
  apply NoDup_app. split; [done|]. split.
  - intros x Hx Hx'. apply list_elem_of_singleton in Hx' as ->. done.
  - apply NoDup_singleton.
Qed.

Lemma dict_set_length {A} (k : string) (v : A) (d : list (string * A)) :
  length (dict_set k v d) <= S (length d).
Proof.
  rewrite <- (length_fmap fst (dict_set k v d)), dict_set_keys.
  case_decide; rewrite ?length_app, !length_fmap; simpl; lia.
Qed.

Lemma _wrap_class_loop_wellformed ticks l : forall d,
  NoDup d.*1 ->
  NoDup (foldl (_wrap_class_body ticks) d l).*1 /\
  length (foldl (_wrap_class_body ticks) d l) <= length d + length l.
Proof.
  induction l as [|[k v] l IH]; intros d Hnd; cbn [foldl].
  - split; [done|]. simpl. lia.
  - rewrite _wrap_class_body_set.
    destruct (IH (dict_set (facade_key k) (facade_value ticks k v) d)) as [H1 H2].
    { by apply dict_set_NoDup. }
    split; [done|].
    pose proof (dict_set_length (facade_key k) (facade_value ticks k v) d).
    simpl. lia.
Qed.

Lemma dict_setdefault_wellformed {A} (k : string) (v : A) (d : list (string * A)) :
  NoDup d.*1 ->
  NoDup (dict_setdefault k v d).*1 /\ length (dict_setdefault k v d) <= S (length d).
Proof.
  intros Hnd. unfold dict_setdefault. destruct (dict_get k d) eqn:E.
  - split; [done|lia].
  - apply dict_get_None in E. rewrite fmap_app, length_app. split; [|simpl; lia].
    apply NoDup_app. split; [done|]. split; [|apply NoDup_singleton].
    intros x Hx Hx'. apply list_elem_of_singleton in Hx' as ->. done.
Qed.

Lemma type_defaults_wellformed {A} (defaults : list (string * A)) : forall d,
  NoDup d.*1 ->
  NoDup (foldl (fun d '(k, m) => dict_setdefault k m d) d defaults).*1 /\
  length (foldl (fun d '(k, m) => dict_setdefault k m d) d defaults)
  <= length d + length defaults.
Proof.
  induction defaults as [|[k v] defaults IH]; intros d Hnd; cbn [foldl].
  - split; [done|]. simpl. lia.
  - destruct (dict_setdefault_wellformed k v d Hnd) as [H1 H2].
    destruct (IH _ H1) as [H3 H4]. split; [done|]. simpl. lia.
Qed.

Lemma kept_keys (d : list (string * member)) :
  ((fun '(k, m) => (k, type_convert k m))
     <$> filter (fun km => ~ type_consumes km.1) d).*1
  = filter (fun k => ~ type_consumes k) d.*1.
Proof.
  induction d as [|[k m] d IH]; [done|].
  rewrite filter_cons. cbn [fmap list_fmap fst]. rewrite filter_cons.
  destruct (decide (~ type_consumes k)); cbn [fmap list_fmap fst]; by rewrite <- IH.
Qed.

(** X6: whenever the facade is built, its namespace is a proper dict (no
    name occurs twice), it is named after the class with the suffix
    [Synchronized], it has no base other than [object], and it always has a
    [__module__] and a [__doc__]; when the class's own namespace has no
    [__slots__] it also has a [__dict__] and a [__weakref__] and at most four
    entries more than the class. *)
Theorem wrap_class_facade_wellformed ticks (T : pyclass) w facade w' :
  _wrap_class ticks T w = (Ok facade, w') ->
  NoDup (cls_dict facade).*1 /\
  cls_name facade = (cls_name T ++ "Synchronized")%string /\
  cls_bases facade = [] /\
  is_Some (getattr facade "__module__") /\
  is_Some (getattr facade "__doc__") /\
  ("__slots__" ∉ (cls_dict T).*1 ->
   is_Some (getattr facade "__dict__") /\
   is_Some (getattr facade "__weakref__") /\
   length (cls_dict facade) <= length (cls_dict T) + 4).
Proof.
  intros H.
  destruct (_wrap_class_facade ticks T w facade w' H)
    as (_ & Hname & Hbases & _ & slots & Hslots & Hget).
  destruct (_wrap_class_loop_wellformed ticks (cls_dict T) []) as [Hnd Hlen];
    [apply NoDup_nil_2|].
  rewrite _wrap_class_type in H.
  destruct (type__cases (cls_name T ++ "Synchronized")%string
              (foldl (_wrap_class_body ticks) [] (cls_dict T)) w)
    as [(e & _ & E)|(slots' & E & Hslots' & _)]; rewrite E in H; [discriminate|].
  assert (Hfacade : facade
          = PyClass (cls_name T ++ "Synchronized")%string []
              (foldl (fun d '(k, m) => dict_setdefault k m d)
                 ((fun '(k, m) => (k, type_convert k m))
                    <$> filter (fun km => ~ type_consumes km.1)
                          (foldl (_wrap_class_body ticks) [] (cls_dict T)))
                 (type_defaults (cls_name T ++ "Synchronized")%string slots')))
    by congruence.
  clear H E.
  assert (Hkept : NoDup ((fun '(k, m) => (k, type_convert k m))
                    <$> filter (fun km => ~ type_consumes km.1)
                          (foldl (_wrap_class_body ticks) [] (cls_dict T))).*1).
  { rewrite kept_keys. by apply NoDup_filter. }
  split; [|split; [done|split; [done|]]].
  { rewrite Hfacade. cbn [cls_dict].
    apply (type_defaults_wellformed
             (type_defaults (cls_name T ++ "Synchronized")%string slots') _ Hkept). }
  assert (Hdefault : forall k,
            ~ type_consumes k ->
            is_Some (dict_get k (type_defaults (cls_name T ++ "Synchronized")%string slots)) ->
            is_Some (getattr facade k)).
  { intros k Hk Hdef. rewrite Hget, decide_False by done.
    by destruct (dict_get k (foldl _ _ _)). }
  split; [|split].
  - apply Hdefault; [intros [?|?]; discriminate|]. by eexists.
  - apply Hdefault; [intros [?|?]; discriminate|].
    unfold type_defaults. rewrite !dict_get_app. cbn [dict_get].
    rewrite decide_False by discriminate.
    destruct (dict_get "__doc__" _); by eexists.
  - intros Hno. pose proof (_wrap_class_no_slots ticks T Hno) as Hnone.
    rewrite (Hslots Hnone) in Hdefault. rewrite (Hslots' Hnone) in Hfacade.
    split; [|split].
    + apply Hdefault; [intros [?|?]; discriminate|]. by eexists.
    + apply Hdefault; [intros [?|?]; discriminate|]. by eexists.
    + rewrite Hfacade. cbn [cls_dict].
      destruct (type_defaults_wellformed
                  (type_defaults (cls_name T ++ "Synchronized")%string None) _ Hkept)
        as [_ Hle].
      etrans; [exact Hle|]. rewrite length_fmap.
      pose proof (length_filter (fun km : string * member => ~ type_consumes km.1)
                    (foldl (_wrap_class_body ticks) [] (cls_dict T))).
      simpl in *. lia.
Qed.

Lemma wrap_class_facade_wellformed_witness :
  exists facade,
    _wrap_class 5 Foo (__init__ None) = (Ok facade, __init__ None) /\
    NoDup (cls_dict facade).*1 /\
    cls_name facade = "FooSynchronized" /\
    length (cls_dict facade) <= length (cls_dict Foo) + 4.
Proof.
  eexists. split; [reflexivity|].
  destruct (wrap_class_facade_wellformed 5 Foo (__init__ None) _ (__init__ None) eq_refl)
    as (Hnd & Hname & _ & _ & _ & Hrest).
  split; [exact Hnd|]. split; [exact Hname|].
  apply Hrest. by apply (bool_decide_unpack _).
Defined.





(** ** Stream bridge: what the pump puts *)

Lemma omap_msg_item_gen (items : list value) : omap msg_item (MsgGen <$> items) = items.
Proof. induction items as [|v items IH]; [done|]. simpl. f_equal. exact IH. Qed.

(** Once the generator has ended the pump puts no further item. *)
Lemma pump_run_ended (coro : asyncgen) (e d : nat) :
  still_running coro e ->
  (coro e = AStop \/ exists x, coro e = ARaise x) ->
  omap msg_item (q (pump_run coro (S d + e))) = yielded coro e /\
  forall i, pc (pump_run coro (S d + e)) <> PumpIter i.
Proof.
  intros Hrun Hend. induction d as [|d [IHq IHpc]].
  - change (1 + e) with (S e). rewrite pump_run_S, (pump_run_still_running coro e Hrun).
    unfold pump_step. cbn [pc q stderr].
    destruct Hend as [->|[x ->]]; [|destruct (isinstance_Exception x)];
      cbn [pc q]; by rewrite omap_msg_item_gen.
  - change (S (S d) + e) with (S (S d + e)). rewrite pump_run_S. unfold pump_step.
    destruct (pc (pump_run coro (S d + e))) as [i|exc| | |x] eqn:E.
    + by destruct (IHpc i).
    + cbn [pc q]. rewrite omap_app, IHq. simpl. by rewrite app_nil_r.
    + cbn [pc q]. rewrite omap_app, IHq. simpl. by rewrite app_nil_r.
    + rewrite E. by split.
    + rewrite E. by split.
Qed.

(** X9: message order is preserved.  A step of the pump is one resumption
    of the generator together with the put of the item it yielded.  As long
    as the generator has neither finished nor raised, the items in the queue
    after [n] steps are exactly the values it yielded in its first [n]
    resumptions, in order; once it has ended, at its resumption [e], the
    items in the queue are for ever the values yielded in the first [e]
    resumptions; and the items in the queue are never removed or reordered. *)
Theorem pump_items_in_production_order (coro : asyncgen) :
  (forall n, still_running coro n ->
     omap msg_item (q (pump_run coro n)) = yielded coro n) /\
  (forall e m, still_running coro e ->
     (coro e = AStop \/ exists x, coro e = ARaise x) ->
     e <= m ->
     omap msg_item (q (pump_run coro m)) = yielded coro e) /\
  (forall n m, n <= m ->
     omap msg_item (q (pump_run coro n)) `prefix_of` omap msg_item (q (pump_run coro m))).
Proof.
  split; [|split].
  - intros n Hrun. rewrite (pump_run_still_running coro n Hrun). cbn [q].
    apply omap_msg_item_gen.
  - intros e m Hrun Hend Hle. destruct (decide (m = e)) as [->|Hne].
    + rewrite (pump_run_still_running coro e Hrun). cbn [q]. apply omap_msg_item_gen.
    + replace m with (S (m - S e) + e) by lia.
      apply (pump_run_ended coro e (m - S e) Hrun Hend).
  - intros n m Hle. destruct (pump_run_mono coro n m Hle) as [k ->].
    rewrite omap_app. by apply prefix_app_r.
Qed.

Lemma pump_items_in_production_order_witness :
  omap msg_item (q (pump_run one_two_three 9)) = [VInt 1; VInt 2; VInt 3].
Proof.
  refine (proj1 (proj2 (pump_items_in_production_order one_two_three)) 4 9 _ _ _).
  - intros k Hk. do 4 (destruct k as [|k]; [simpl; eauto|]). lia.
  - by left.
  - lia.
Defined.

Lemma pump_stderr_queue (coro : asyncgen) (n : nat) :
  stderr (pump_run coro n) = omap msg_exc (q (pump_run coro n)).
Proof.
  induction n as [|n IH]; [done|].
  rewrite pump_run_S. unfold pump_step.
  destruct (pc (pump_run coro n)) as [i|exc| | |e] eqn:E; simpl;
    rewrite ?omap_app, ?IH; simpl; rewrite ?app_nil_r; try done.
  destruct (coro i) as [|v|e|]; simpl; rewrite ?omap_app, ?IH; simpl;
    rewrite ?app_nil_r; try done.
  by destruct (isinstance_Exception e).
Qed.

Lemma omap_msg_exc_gen (items : list value) : omap msg_exc (MsgGen <$> items) = [].
Proof. induction items as [|v items IH]; [done|]. simpl. exact IH. Qed.

(** X10: what [traceback.print_exc()] has written and what is forwarded.
    For a generator that ends, at its resumption [n], by raising an instance
    of [Exception]: from the moment the pump has put the exception, that
    exception is the one thing printed and the one error in the queue.  For
    a generator that ends by finishing, or by raising something that is not
    an instance of [Exception], the pump never prints anything and never
    forwards an error. *)
Theorem pump_logs_what_it_forwards (coro : asyncgen) (n : nat) :
  still_running coro n ->
  (forall e m, coro n = ARaise e -> isinstance_Exception e = true -> n + 2 <= m ->
     stderr (pump_run coro m) = [e] /\
     omap msg_exc (q (pump_run coro m)) = [e]) /\
  (forall e m, coro n = ARaise e -> isinstance_Exception e = false ->
     stderr (pump_run coro m) = [] /\
     omap msg_exc (q (pump_run coro m)) = []) /\
  (forall m, coro n = AStop ->
     stderr (pump_run coro m) = [] /\
     omap msg_exc (q (pump_run coro m)) = []).
Proof.
  intros Hrun.
  assert (Hearly : forall m, m <= n ->
            stderr (pump_run coro m) = [] /\ omap msg_exc (q (pump_run coro m)) = []).
  { intros m Hm.
    rewrite (pump_run_still_running coro m) by (intros k Hk; apply Hrun; lia).
    cbn [q stderr]. by rewrite omap_msg_exc_gen. }
  split; [|split].
  - intros e m Hraise He Hm.
    assert (Hput : pump_run coro (S (S n))
                   = {| pc := PumpAfterTry;
                        q := (MsgGen <$> yielded coro n) ++ [MsgExc e];
                        stderr := [e] |}).
    { rewrite !pump_run_S, (pump_run_still_running coro n Hrun).
      unfold pump_step at 2. cbn [pc q stderr]. rewrite Hraise, He.
      reflexivity. }
    destruct (decide (m = S (S n))) as [->|Hne].
    + rewrite Hput. cbn [q stderr]. by rewrite omap_app, omap_msg_exc_gen.
    + rewrite (pump_run_failed coro n m e Hrun Hraise He) by lia. cbn [q stderr].
      by rewrite omap_app, omap_msg_exc_gen.
  - intros e m Hraise He. destruct (decide (m <= n)) as [Hm|Hm]; [by apply Hearly|].
    assert (Hfailed : pump_run coro (S n)
                      = {| pc := PumpFailed e;
                           q := MsgGen <$> yielded coro n;
                           stderr := [] |}).
    { rewrite pump_run_S, (pump_run_still_running coro n Hrun).
      unfold pump_step. cbn [pc q stderr]. by rewrite Hraise, He. }
    replace m with ((m - S n) + S n) by lia.
    rewrite pump_run_add, Hfailed, (pump_failed_stable coro _ e) by done.
    cbn [q stderr]. by rewrite omap_msg_exc_gen.
  - intros m Hstop. destruct (decide (m <= n)) as [Hm|Hm]; [by apply Hearly|].
    destruct (decide (m = S n)) as [->|Hne].
    + rewrite pump_run_S, (pump_run_still_running coro n Hrun).
      unfold pump_step. cbn [pc q stderr]. rewrite Hstop. cbn [q stderr].
      by rewrite omap_msg_exc_gen.
    + rewrite (pump_run_stopped coro n m Hrun Hstop) by lia. cbn [q stderr].
      by rewrite omap_app, omap_msg_exc_gen.
Qed.

Lemma pump_logs_what_it_forwards_witness :
  stderr (pump_run (one_then (UserException 7)) 3) = [UserException 7] /\
  omap msg_exc (q (pump_run (one_then (UserException 7)) 3)) = [UserException 7].
Proof.
  refine (proj1 (pump_logs_what_it_forwards (one_then (UserException 7)) 1 _)
            (UserException 7) 3 eq_refl eq_refl _).
  - intros k Hk. destruct k as [|k]; [simpl; eauto|lia].
  - lia.
Defined.

Lemma pump_queue_item ticks (coro : asyncgen) (n i : nat) (v : value) :
  still_running coro n ->
  n <= ticks ->
  yielded coro n !! i = Some v ->
  q (pump_run coro ticks) !! i = Some (MsgGen v).
Proof.
  intros Hrun Hle Hi. apply (pump_run_lookup_mono coro n); [done|].
  rewrite (pump_run_still_running coro n Hrun). simpl.
  by rewrite list_lookup_fmap, Hi.
Qed.

(** ** Stream bridge: what the consumer sees *)

(** X11: a generator that yields finitely many items and then finishes is
    consumed in order: the pull at position [i] yields the i-th item, the
    pull after the last item ends the iteration with StopIteration, and the
    first pull differs from the others only by starting the pump. *)
Theorem stream_in_order_then_stop ticks (coro : asyncgen) (n : nat) (w : World) :
  still_running coro n ->
  coro n = AStop ->
  n + 2 <= ticks ->
  gen_next ticks (GenCreated coro) w
    = (fst (gen_next ticks (GenStarted coro 0) (pump_started w)), pump_started w) /\
  (forall i v, yielded coro n !! i = Some v ->
     gen_next ticks (GenStarted coro i) w = (Ok (NextYield v, GenStarted coro (S i)), w)) /\
  gen_next ticks (GenStarted coro (length (yielded coro n))) w
    = (Ok (NextStop VNone, GenFinished), w).
Proof.
  intros Hrun Hstop Hticks. split; [|split].
  - by rewrite gen_next_created.
  - intros i v Hi. simpl. unfold mret, M_ret, gen_loop.
    by rewrite (pump_queue_item ticks coro n i v Hrun) by (done || lia).
  - simpl. unfold mret, M_ret, gen_loop.
    assert (Hq : q (pump_run coro ticks) !! length (yielded coro n) = Some (MsgVal VNone)).
    { apply (pump_run_lookup_mono coro (S (S n))); [lia|].
      rewrite !pump_run_S, (pump_run_still_running coro n Hrun).
      unfold pump_step at 2. simpl. rewrite Hstop. unfold pump_step. simpl.
      rewrite lookup_app_r by (by rewrite length_fmap).
      by rewrite length_fmap, Nat.sub_diag. }
    by rewrite Hq.
Qed.

Lemma stream_in_order_then_stop_witness :
  gen_next 6 (GenStarted one_two_three 1) (__init__ None)
    = (Ok (NextYield (VInt 2), GenStarted one_two_three 2), __init__ None) /\
  gen_next 6 (GenStarted one_two_three 3) (__init__ None)
    = (Ok (NextStop VNone, GenFinished), __init__ None).
Proof.
  assert (Hrun : still_running one_two_three 4).
  { intros k Hk. destruct k as [|[|[|[|k]]]]; simpl; eauto. lia. }
  destruct (stream_in_order_then_stop 6 one_two_three 4 (__init__ None) Hrun eq_refl
              ltac:(lia)) as (_ & Hitems & Hstop).
  split; [apply (Hitems 1 (VInt 2) eq_refl)|exact Hstop].
Defined.

(** X12: a generator that yields finitely many items and then raises an
    instance [E] of [Exception] is consumed in order; the pull after the last
    item raises [E] itself and finishes the iteration, and the traceback of
    [E] has been printed once. *)
Theorem stream_in_order_then_raise ticks (coro : asyncgen) (n : nat) (E : exn) (w : World) :
  still_running coro n ->
  coro n = ARaise E ->
  isinstance_Exception E = true ->
  n + 2 <= ticks ->
  (forall i v, yielded coro n !! i = Some v ->
     gen_next ticks (GenStarted coro i) w = (Ok (NextYield v, GenStarted coro (S i)), w)) /\
  gen_next ticks (GenStarted coro (length (yielded coro n))) w
    = (Ok (NextRaise E, GenFinished), w) /\
  stderr (pump_run coro ticks) = [E].
Proof.
  intros Hrun Hraise HE Hticks.
  assert (H2 : pump_run coro (S (S n))
               = {| pc := PumpAfterTry;
                    q := (MsgGen <$> yielded coro n) ++ [MsgExc E];
                    stderr := [E] |}).
  { rewrite !pump_run_S, (pump_run_still_running coro n Hrun).
    unfold pump_step at 2. simpl. rewrite Hraise, HE. reflexivity. }
  split; [|split].
  - intros i v Hi. simpl. unfold mret, M_ret, gen_loop.
    by rewrite (pump_queue_item ticks coro n i v Hrun) by (done || lia).
  - simpl. unfold mret, M_ret, gen_loop.
    assert (Hq : q (pump_run coro ticks) !! length (yielded coro n) = Some (MsgExc E)).
    { apply (pump_run_lookup_mono coro (S (S n))); [lia|]. rewrite H2. simpl.
      rewrite lookup_app_r by (by rewrite length_fmap).
      by rewrite length_fmap, Nat.sub_diag. }
    by rewrite Hq.
  - replace ticks with ((ticks - S (S n)) + S (S n)) by lia.
    rewrite pump_run_add, H2.
    destruct (ticks - S (S n)) as [|d]; [reflexivity|].
    rewrite Nat.iter_succ_r. unfold pump_step at 2. simpl.
    by rewrite pump_returned_stable.
Qed.

Lemma stream_in_order_then_raise_witness :
  gen_next 3 (GenStarted (one_then (UserException 7)) 0) (__init__ None)
    = (Ok (NextYield (VInt 1), GenStarted (one_then (UserException 7)) 1), __init__ None) /\
  gen_next 3 (GenStarted (one_then (UserException 7)) 1) (__init__ None)
    = (Ok (NextRaise (UserException 7), GenFinished), __init__ None) /\
  stderr (pump_run (one_then (UserException 7)) 3) = [UserException 7].
Proof.
  assert (Hrun : still_running (one_then (UserException 7)) 1).
  { intros k Hk. destruct k as [|k]; simpl; eauto. lia. }
  destruct (stream_in_order_then_raise 3 (one_then (UserException 7)) 1 (UserException 7)
              (__init__ None) Hrun eq_refl eq_refl ltac:(lia)) as (Hitems & Hraise & Hlog).
  split; [apply (Hitems 0 (VInt 1) eq_refl)|]. split; [exact Hraise|exact Hlog].
Defined.

(** X13: a generator that raises something that is not an instance of
    [Exception] (a cancellation, a KeyboardInterrupt) is fatal for the
    stream: the pump never puts a terminal message and prints nothing, and
    the consumer, after the items yielded before, stays blocked however long
    it waits. *)
Theorem stream_base_exception_hangs ticks (coro : asyncgen) (n : nat) (E : exn) (w : World) :
  still_running coro n ->
  coro n = ARaise E ->
  isinstance_Exception E = false ->
  (forall m x, x ∈ q (pump_run coro m) -> is_terminal x = false) /\
  (forall m, stderr (pump_run coro m) = []) /\
  gen_next ticks (GenStarted coro (length (yielded coro n))) w
    = (Ok (NextBlocked, GenStarted coro (length (yielded coro n))), w).
Proof.
  intros Hrun Hraise HE.
  assert (H1 : pump_run coro (S n)
               = {| pc := PumpFailed E; q := MsgGen <$> yielded coro n; stderr := [] |}).
  { rewrite pump_run_S, (pump_run_still_running coro n Hrun).
    unfold pump_step. simpl. by rewrite Hraise, HE. }
  assert (Hpre : forall m, q (pump_run coro m) `prefix_of` MsgGen <$> yielded coro n).
  { intros m. destruct (decide (m <= S n)) as [Hle|Hgt].
    - replace (MsgGen <$> yielded coro n) with (q (pump_run coro (S n))) by (by rewrite H1).
      by apply pump_run_mono.
    - replace m with ((m - S n) + S n) by lia.
      rewrite pump_run_add, (pump_failed_stable coro _ E) by (by rewrite H1).
      by rewrite H1. }
  assert (Hterm : forall m x, x ∈ q (pump_run coro m) -> is_terminal x = false).
  { intros m x Hx. destruct (Hpre m) as [rest Hrest].
    assert (Hin : x ∈ MsgGen <$> yielded coro n).
    { rewrite Hrest. apply elem_of_app. by left. }
    apply list_elem_of_fmap in Hin as (v & -> & _). reflexivity. }
  split; [exact Hterm|]. split.
  - intros m. rewrite pump_stderr_queue.
    destruct (omap msg_exc (q (pump_run coro m))) as [|e l] eqn:Hl; [done|].
    assert (He : e ∈ omap msg_exc (q (pump_run coro m))) by (rewrite Hl; left).
    apply list_elem_of_omap in He as (x & Hx & Hexc).
    apply Hterm in Hx. by destruct x.
  - simpl. unfold mret, M_ret, gen_loop.
    assert (Hq : q (pump_run coro ticks) !! length (yielded coro n) = None).
    { apply lookup_ge_None. pose proof (prefix_length _ _ (Hpre ticks)) as Hlen.
      by rewrite length_fmap in Hlen. }
    by rewrite Hq.
Qed.

Lemma stream_base_exception_hangs_witness :
  (forall m x, x ∈ q (pump_run (one_then (UserBaseException 7)) m) -> is_terminal x = false) /\
  (forall m, stderr (pump_run (one_then (UserBaseException 7)) m) = []) /\
  gen_next 1000 (GenStarted (one_then (UserBaseException 7)) 1) (__init__ None)
    = (Ok (NextBlocked, GenStarted (one_then (UserBaseException 7)) 1), __init__ None).
Proof.
  assert (Hrun : still_running (one_then (UserBaseException 7)) 1).
  { intros k Hk. destruct k as [|k]; simpl; eauto. lia. }
  exact (stream_base_exception_hangs 1000 (one_then (UserBaseException 7)) 1
           (UserBaseException 7) (__init__ None) Hrun eq_refl eq_refl).
Defined.

(** X14: the stream bridge is lazy.  Outside a running event loop, calling
    the wrapper of a generator function only makes the generator object: no
    loop, thread, queue or submission.  The first [next] obtains the loop
    (starting the thread only if no loop is stored), creates one queue and
    submits one pump; every later [next] leaves the instance untouched. *)
Theorem wrap_generator_lazy ticks (g : member) return_future args w w1 (coro : asyncgen) :
  call g args w = (Ok (VAsyncGen coro), w1) ->
  running_loop w1 = None ->
  _wrap_callable ticks g return_future args w = (Ok (VGenerator coro), w1) /\
  (let w2 := snd (gen_next ticks (GenCreated coro) w1) in
   queues_created w2 = S (queues_created w1) /\
   futures_created w2 = S (futures_created w1) /\
   is_Some (_loop w2) /\
   (is_Some (_loop w1) ->
    _loop w2 = _loop w1 /\ threads_started w2 = threads_started w1) /\
   (_loop w1 = None -> threads_started w2 = S (threads_started w1))) /\
  (forall taken w', snd (gen_next ticks (GenStarted coro taken) w') = w') /\
  (forall w', snd (gen_next ticks GenFinished w') = w').
Proof.
  intros Hg Hctx. split; [|split; [|split]].
  - rewrite (_wrap_callable_after_target ticks g return_future args w _ w1 Hg).
    by rewrite Hctx.
  - rewrite gen_next_created. simpl.
    unfold pump_started, _get_loop, Queue, run_coroutine_threadsafe, get, put.
    unfold mbind, M_bind, mret, M_ret.
    destruct (_loop w1) as [l|] eqn:E; simpl; rewrite ?E.
    + split; [done|]. split; [done|]. split; [by eexists|].
      split; [done|discriminate].
    + split; [done|]. split; [done|]. split; [by eexists|].
      split; [|done]. intros [? ?]. discriminate.
  - reflexivity.
  - reflexivity.
Qed.

Lemma wrap_generator_lazy_witness :
  _wrap_callable 3 (MCallable (one_then_raise (UserException 7))) true ([], []) (__init__ None)
    = (Ok (VGenerator (fun n => match n with 0 => AYield (VInt 1) | _ => ARaise (UserException 7) end)),
       __init__ None).
Proof.
  exact (proj1 (wrap_generator_lazy 3 (MCallable (one_then_raise (UserException 7))) true
                  ([], []) (__init__ None) (__init__ None) _ eq_refl eq_refl)).
Defined.

(** ** Scheduler host under concurrent calls: what holds in every interleaving *)



















